(** * InvokeAI model installer front end: selection reconciliation and
      out-of-process installation, after
      [invokeai/frontend/install/model_install.py].

    The definitions come first.
    - [Py]: the Python values the code manipulates (strings as sequences of
      code points, [bytes], [str.split], UTF-8, exceptions).
    - [Reconcile]: [addModelsForm.marshall_arguments] and the widget
      construction it depends on.
    - [Orchestrator]: [process_and_execute] (the worker) and
      [addModelsForm.while_waiting] (the controller's poll), over a model of
      the pipe that connects them.

    The results follow, in [PyFacts], [ReconcileFacts] and
    [OrchestratorFacts]. *)

From Stdlib Require Import NArith Strings.String Strings.Ascii Strings.Byte Lia.
From stdpp Require Import base option list sorting gmap.

Local Open Scope N_scope.

(* ===================================================================== *)
(** ** Python values *)
(* ===================================================================== *)

Module Py.

(** A Python [str] is a sequence of Unicode code points. *)
Definition codepoint := N.
Definition str := list codepoint.

(** Source literals are ASCII; [lit "abc"] is the [str] with those code
    points. *)
Definition lit (s : string) : str :=
  (λ a, N_of_ascii a) <$> list_ascii_of_string s.

(** Python [bytes]. *)
Definition bytes := list byte.

(** The exceptions the modelled code can raise. *)
Inductive exn :=
  | IndexError | KeyError | ValueError
  | EOFError | OSError
  | UnicodeDecodeError | UnicodeEncodeError
  | InstallerError.

(** An expression either raises ([inl]) or yields a value ([inr]). *)
Definition result (A : Type) := (exn + A)%type.

Definition raise {A} (e : exn) : result A := inl e.

#[global] Instance result_ret : MRet result := λ A x, inr x.
#[global] Instance result_bind : MBind result := λ A B f m,
  match m with inl e => inl e | inr x => f x end.
#[global] Instance result_fmap : FMap result := λ A B f m,
  match m with inl e => inl e | inr x => inr (f x) end.

(** [l[i]] for a non-negative index. *)
Definition getitem {A} (l : list A) (i : nat) : result A :=
  match l !! i with Some x => inr x | None => raise IndexError end.

(** [d[k]] on a dictionary. *)
Definition dict_getitem `{Countable K} {V} (d : gmap K V) (k : K) : result V :=
  match d !! k with Some v => inr v | None => raise KeyError end.

(** [l.index(x)]: position of the first occurrence. *)
Fixpoint index `{EqDecision A} (x : A) (l : list A) : result nat :=
  match l with
  | [] => raise ValueError
  | y :: l' => if decide (x = y) then inr 0%nat else S <$> index x l'
  end.

(** [[elt(x) for x in l if cond(x)]], where both the condition and the
    element expression may raise. *)
Fixpoint comprehension {A B} (cond : A → result bool) (elt : A → result B)
    (l : list A) : result (list B) :=
  match l with
  | [] => inr []
  | x :: l' =>
      c ← cond x;
      if c : bool
      then y ← elt x; ys ← comprehension cond elt l'; mret (y :: ys)
      else comprehension cond elt l'
  end.

(** The keys of [dict(items)] in iteration order: a key keeps the position
    of its first insertion. *)
Fixpoint dict_keys_from `{EqDecision K} (seen : list K) (items : list K) : list K :=
  match items with
  | [] => []
  | k :: r =>
      if decide (k ∈ seen) then dict_keys_from seen r
      else k :: dict_keys_from (k :: seen) r
  end.
Definition dict_keys `{EqDecision K} (items : list K) : list K :=
  dict_keys_from [] items.

(** *** [str.isspace], [str.split()] and [str.strip(chars)] *)

Definition isspace (c : codepoint) : bool :=
  ((9 <=? c) && (c <=? 13)) || ((28 <=? c) && (c <=? 32))
  || (c =? 133) || (c =? 160) || (c =? 5760)
  || ((8192 <=? c) && (c <=? 8202))
  || (c =? 8232) || (c =? 8233) || (c =? 8239) || (c =? 8287) || (c =? 12288).

(** [split_from word s]: [word] holds, reversed, the characters of the word
    being read. *)
Fixpoint split_from (word : str) (s : str) : list str :=
  match s with
  | [] => match word with [] => [] | _ => [rev word] end
  | c :: r =>
      if isspace c
      then match word with
           | [] => split_from [] r
           | _ => rev word :: split_from [] r
           end
      else split_from (c :: word) r
  end.

(** [s.split()] *)
Definition split (s : str) : list str := split_from [] s.

Fixpoint lstrip (chars : str) (s : str) : str :=
  match s with
  | c :: r => if decide (c ∈ chars) then lstrip chars r else s
  | [] => []
  end.

(** [s.strip(chars)] *)
Definition strip (chars : str) (s : str) : str :=
  rev (lstrip chars (rev (lstrip chars s))).

(** *** Ordering of [str] and [sorted] *)

Fixpoint str_leb (a b : str) : bool :=
  match a, b with
  | [], _ => true
  | _ :: _, [] => false
  | x :: a', y :: b' =>
      if x <? y then true else if x =? y then str_leb a' b' else false
  end.

Definition str_le (a b : str) : Prop := str_leb a b.

#[global] Instance str_le_dec : RelDecision str_le := λ a b, _.

(** [sorted(l)] on a list of [str]. *)
Definition sorted (l : list str) : list str := merge_sort str_le l.

(** [d.keys()] *)
Definition keys {V} (d : gmap str V) : list str := (map_to_list d).*1.

(** *** UTF-8: [str.encode('utf-8')] and [bytes.decode('utf-8')] *)

Definition byte_of_N (n : N) : byte := default x00 (Byte.of_N n).

Definition surrogate (c : codepoint) : bool := (55296 <=? c) && (c <=? 57343).

Definition encode_codepoint (c : codepoint) : result (list N) :=
  if c <? 128 then inr [c]
  else if c <? 2048 then inr [192 + c / 64; 128 + c mod 64]
  else if c <? 65536 then
    if surrogate c then raise UnicodeEncodeError
    else inr [224 + c / 4096; 128 + (c / 64) mod 64; 128 + c mod 64]
  else if c <? 1114112 then
    inr [240 + c / 262144; 128 + (c / 4096) mod 64;
         128 + (c / 64) mod 64; 128 + c mod 64]
  else raise UnicodeEncodeError.

(** [s.encode('utf-8')] *)
Fixpoint utf8_encode (s : str) : result bytes :=
  match s with
  | [] => inr []
  | c :: r =>
      bs ← encode_codepoint c;
      rest ← utf8_encode r;
      mret ((byte_of_N <$> bs) ++ rest)
  end.

Definition continuation (n : N) : bool := (128 <=? n) && (n <=? 191).

(** [b.decode('utf-8')], strict: overlong forms, surrogates, values above
    U+10FFFF and truncated sequences raise. *)
Fixpoint utf8_decode (b : bytes) : result str :=
  match b with
  | [] => inr []
  | b0 :: r0 =>
      let n0 := Byte.to_N b0 in
      if n0 <? 128 then cons n0 <$> utf8_decode r0
      else if (194 <=? n0) && (n0 <=? 223) then
        match r0 with
        | b1 :: r1 =>
            let n1 := Byte.to_N b1 in
            if continuation n1
            then cons ((n0 - 192) * 64 + (n1 - 128)) <$> utf8_decode r1
            else raise UnicodeDecodeError
        | _ => raise UnicodeDecodeError
        end
      else if (224 <=? n0) && (n0 <=? 239) then
        match r0 with
        | b1 :: b2 :: r2 =>
            let n1 := Byte.to_N b1 in
            let n2 := Byte.to_N b2 in
            let c := (n0 - 224) * 4096 + (n1 - 128) * 64 + (n2 - 128) in
            if continuation n1 && continuation n2
               && (2048 <=? c) && negb (surrogate c)
            then cons c <$> utf8_decode r2
            else raise UnicodeDecodeError
        | _ => raise UnicodeDecodeError
        end
      else if (240 <=? n0) && (n0 <=? 244) then
        match r0 with
        | b1 :: b2 :: b3 :: r3 =>
            let n1 := Byte.to_N b1 in
            let n2 := Byte.to_N b2 in
            let n3 := Byte.to_N b3 in
            let c := (n0 - 240) * 262144 + (n1 - 128) * 4096
                     + (n2 - 128) * 64 + (n3 - 128) in
            if continuation n1 && continuation n2 && continuation n3
               && (65536 <=? c) && (c <=? 1114111)
            then cons c <$> utf8_decode r3
            else raise UnicodeDecodeError
        | _ => raise UnicodeDecodeError
        end
      else raise UnicodeDecodeError
  end.

End Py.

(* ===================================================================== *)
(** ** Selection reconciliation: [addModelsForm.marshall_arguments] *)
(* ===================================================================== *)

Module Reconcile.
Import Py.

(** *** Data *)

(** [UserSelections] (declared in the backend): the attributes this file
    reads and writes.  One object, [app.user_selections], lives as long as
    the application and is handed to every call of [marshall_arguments]. *)
Record UserSelections := mkUserSelections {
  install_models : list str;
  remove_models : list str;
  purge_deleted_models : bool;
  install_cn_models : list str;
  remove_cn_models : list str;
  install_lora_models : list str;
  remove_lora_models : list str;
  install_ti_models : list str;
  remove_ti_models : list str;
  scan_directory : option str;
  autoscan_on_startup : bool;
  import_model_paths : list str;
}.

(** A newly made [UserSelections()], every list empty and every flag off.
    The class is declared in the backend; this file extends its lists
    without creating them (lines 584, 598, 614), so they start as lists.
    Only concrete runs start from here: the general results hold for any
    earlier content of [selections]. *)
Definition fresh_selections : UserSelections :=
  mkUserSelections [] [] false [] [] [] [] [] [] None false [].

Definition set_install_models v s :=
  mkUserSelections v (remove_models s) (purge_deleted_models s)
    (install_cn_models s) (remove_cn_models s) (install_lora_models s)
    (remove_lora_models s) (install_ti_models s) (remove_ti_models s)
    (scan_directory s) (autoscan_on_startup s) (import_model_paths s).
Definition set_remove_models v s :=
  mkUserSelections (install_models s) v (purge_deleted_models s)
    (install_cn_models s) (remove_cn_models s) (install_lora_models s)
    (remove_lora_models s) (install_ti_models s) (remove_ti_models s)
    (scan_directory s) (autoscan_on_startup s) (import_model_paths s).
Definition set_purge_deleted_models v s :=
  mkUserSelections (install_models s) (remove_models s) v
    (install_cn_models s) (remove_cn_models s) (install_lora_models s)
    (remove_lora_models s) (install_ti_models s) (remove_ti_models s)
    (scan_directory s) (autoscan_on_startup s) (import_model_paths s).
Definition set_install_cn_models v s :=
  mkUserSelections (install_models s) (remove_models s) (purge_deleted_models s)
    v (remove_cn_models s) (install_lora_models s)
    (remove_lora_models s) (install_ti_models s) (remove_ti_models s)
    (scan_directory s) (autoscan_on_startup s) (import_model_paths s).
Definition set_remove_cn_models v s :=
  mkUserSelections (install_models s) (remove_models s) (purge_deleted_models s)
    (install_cn_models s) v (install_lora_models s)
    (remove_lora_models s) (install_ti_models s) (remove_ti_models s)
    (scan_directory s) (autoscan_on_startup s) (import_model_paths s).
Definition set_install_lora_models v s :=
  mkUserSelections (install_models s) (remove_models s) (purge_deleted_models s)
    (install_cn_models s) (remove_cn_models s) v
    (remove_lora_models s) (install_ti_models s) (remove_ti_models s)
    (scan_directory s) (autoscan_on_startup s) (import_model_paths s).
Definition set_remove_lora_models v s :=
  mkUserSelections (install_models s) (remove_models s) (purge_deleted_models s)
    (install_cn_models s) (remove_cn_models s) (install_lora_models s)
    v (install_ti_models s) (remove_ti_models s)
    (scan_directory s) (autoscan_on_startup s) (import_model_paths s).
Definition set_install_ti_models v s :=
  mkUserSelections (install_models s) (remove_models s) (purge_deleted_models s)
    (install_cn_models s) (remove_cn_models s) (install_lora_models s)
    (remove_lora_models s) v (remove_ti_models s)
    (scan_directory s) (autoscan_on_startup s) (import_model_paths s).
Definition set_remove_ti_models v s :=
  mkUserSelections (install_models s) (remove_models s) (purge_deleted_models s)
    (install_cn_models s) (remove_cn_models s) (install_lora_models s)
    (remove_lora_models s) (install_ti_models s) v
    (scan_directory s) (autoscan_on_startup s) (import_model_paths s).
Definition set_scan_directory v s :=
  mkUserSelections (install_models s) (remove_models s) (purge_deleted_models s)
    (install_cn_models s) (remove_cn_models s) (install_lora_models s)
    (remove_lora_models s) (install_ti_models s) (remove_ti_models s)
    v (autoscan_on_startup s) (import_model_paths s).
Definition set_autoscan_on_startup v s :=
  mkUserSelections (install_models s) (remove_models s) (purge_deleted_models s)
    (install_cn_models s) (remove_cn_models s) (install_lora_models s)
    (remove_lora_models s) (install_ti_models s) (remove_ti_models s)
    (scan_directory s) v (import_model_paths s).
Definition set_import_model_paths v s :=
  mkUserSelections (install_models s) (remove_models s) (purge_deleted_models s)
    (install_cn_models s) (remove_cn_models s) (install_lora_models s)
    (remove_lora_models s) (install_ti_models s) (remove_ti_models s)
    (scan_directory s) (autoscan_on_startup s) v.

(** A multi-select widget: [values] are the labels shown, [value] the
    indices of the checked ones, which the widget counts from zero. *)
Record MultiSelect := mkMultiSelect {
  values : list str;
  value : list nat;
}.

(** A group of widgets is a [dict[str, widget]]; a key that was never added
    is [None] here.  Only the widgets' values are kept. *)
Record Widgets := mkWidgets {
  models_selected : option MultiSelect;
  download_ids : option str;
  purge_deleted : option bool;
  autoload_directory : option (option str);
  autoscan_checkbox : option bool;
}.

(** [widgets[key]] *)
Definition item {A} (w : option A) : result A :=
  match w with Some x => inr x | None => raise KeyError end.

(** The attributes of [addModelsForm] that [marshall_arguments] reads. *)
Record addModelsForm := mkForm {
  starter_model_list : list str;
  existing_models : gset str;
  installed_diffusers_models : gmap str bool;
  installed_cn_models : gmap str bool;
  installed_lora_models : gmap str bool;
  installed_ti_models : gmap str bool;
  starter_diffusers_models : Widgets;
  diffusers_models : Widgets;
  controlnet_models : Widgets;
  lora_models : Widgets;
  ti_models : Widgets;
}.

(** *** Statements that read and update [selections] and may raise *)

Definition M (A : Type) : Type := UserSelections → result A * UserSelections.

#[global] Instance M_ret : MRet M := λ A x s, (inr x, s).
#[global] Instance M_bind : MBind M := λ A B f m s,
  match m s with
  | (inl e, s') => (inl e, s')
  | (inr x, s') => f x s'
  end.

(** Evaluate an expression that does not touch [selections]. *)
Definition eval {A} (r : result A) : M A := λ s, (r, s).
(** [selections.attr = v] *)
Definition assign (f : UserSelections → UserSelections) : M unit :=
  λ s, (inr (), f s).
(** [selections.attr] *)
Definition attr {A} (f : UserSelections → A) : M A := λ s, (inr (f s), s).

(** *** The two comprehensions shared by the ControlNet, LoRA and TI blocks *)

(** [[w.values[x] for x in w.value if not installed[w.values[x]]]] *)
Definition checked_not_installed (installed : gmap str bool) (w : MultiSelect)
    : result (list str) :=
  comprehension
    (λ x, v ← getitem (values w) x; b ← dict_getitem installed v; mret (negb b))
    (λ x, getitem (values w) x)
    (value w).

(** [[x for x in w.values if installed[x] and w.values.index(x) not in w.value]] *)
Definition installed_unchecked (installed : gmap str bool) (w : MultiSelect)
    : result (list str) :=
  comprehension
    (λ x, b ← dict_getitem installed x;
          if b : bool
          then i ← index x (values w); mret (bool_decide (i ∉ value w))
          else mret false)
    (λ x, mret x)
    (values w).

Definition slash : codepoint := 47.

(** *** [marshall_arguments] *)

Definition marshall_arguments (self : addModelsForm) : M unit :=
  (* Starter models to install/remove *)
  sel ← eval (item (models_selected (starter_diffusers_models self)));
  picked ← eval (mapM (getitem (starter_model_list self)) (value sel));
  let starter_models := dict_keys picked in
  p1 ← eval (item (purge_deleted (starter_diffusers_models self)));
  p ← (if p1 : bool then mret true
       else eval (item (purge_deleted (diffusers_models self))));
  _ ← assign (set_purge_deleted_models p);
  _ ← assign (set_install_models
                (filter (λ x, x ∉ existing_models self) starter_models));
  _ ← assign (set_remove_models
                (filter (λ x, x ∈ existing_models self ∧ x ∉ starter_models)
                        (starter_model_list self)));
  (* "More" models *)
  txt ← eval (item (download_ids (diffusers_models self)));
  _ ← assign (set_import_model_paths (split txt));
  _ ← match models_selected (diffusers_models self) with
      | Some diffusers_selected =>
          extra ← eval (installed_unchecked (installed_diffusers_models self)
                                            diffusers_selected);
          old ← attr remove_models;
          assign (set_remove_models (old ++ extra))
      | None => mret ()
      end;
  (* ControlNet *)
  _ ← match models_selected (controlnet_models self) with
      | Some cn_models_selected =>
          ins ← eval (checked_not_installed (installed_cn_models self)
                                            cn_models_selected);
          _ ← assign (set_install_cn_models ins);
          rem ← eval (installed_unchecked (installed_cn_models self)
                                          cn_models_selected);
          assign (set_remove_cn_models rem)
      | None => mret ()
      end;
  txt ← eval (item (download_ids (controlnet_models self)));
  _ ← match split txt with
      | [] => mret ()
      | additional_cns =>
          let valid_cns := filter (λ x, slash ∈ x) additional_cns in
          old ← attr install_cn_models;
          assign (set_install_cn_models (old ++ valid_cns))
      end;
  (* same thing, for LoRAs *)
  _ ← match models_selected (lora_models self) with
      | Some loras_selected =>
          ins ← eval (checked_not_installed (installed_lora_models self)
                                            loras_selected);
          _ ← assign (set_install_lora_models ins);
          rem ← eval (installed_unchecked (installed_lora_models self)
                                          loras_selected);
          assign (set_remove_lora_models rem)
      | None => mret ()
      end;
  txt ← eval (item (download_ids (lora_models self)));
  _ ← match split txt with
      | [] => mret ()
      | additional_loras =>
          old ← attr install_lora_models;
          assign (set_install_lora_models (old ++ additional_loras))
      end;
  (* same thing, for TIs *)
  _ ← match models_selected (ti_models self) with
      | Some tis_selected =>
          ins ← eval (checked_not_installed (installed_ti_models self)
                                            tis_selected);
          _ ← assign (set_install_ti_models ins);
          rem ← eval (installed_unchecked (installed_ti_models self)
                                          tis_selected);
          assign (set_remove_ti_models rem)
      | None => mret ()
      end;
  txt ← eval (item (download_ids (ti_models self)));
  _ ← match split txt with
      | [] => mret ()
      | additional_tis =>
          old ← attr install_ti_models;
          assign (set_install_ti_models (old ++ additional_tis))
      end;
  (* load directory and whether to scan on startup *)
  d ← eval (item (autoload_directory (diffusers_models self)));
  _ ← assign (set_scan_directory d);
  a ← eval (item (autoscan_checkbox (diffusers_models self)));
  assign (set_autoscan_on_startup a).

(** *** Building the form: [create] and the widget constructors *)

(** What [create] reads from outside the form. *)
Record Environment := mkEnv {
  (** [OmegaConf.load(Dataset_path)['diffusers']]: the starter catalog in
      file order, each name with its [recommended] flag. *)
  env_starter_models : list (str * bool);
  (** the keys of [OmegaConf.load(default_config_file())], or of [dict()]
      when loading fails *)
  env_existing_models : gset str;
  (** [manager.list_models()]: name to [format] *)
  env_model_info : gmap str str;
  env_controlnet_models : gmap str bool;
  env_lora_models : gmap str bool;
  env_ti_models : gmap str bool;
}.

(** All currently installed models that are not on the starter list. *)
Definition list_additional_diffusers_models (model_info : gmap str str)
    (starters : list (str * bool)) : gmap str bool :=
  (λ _, true) <$>
    filter (λ kv, kv.2 = lit "diffusers" ∧ kv.1 ∉ starters.*1) model_info.

(** [add_starter_diffusers].  The labels shown pad each name with its
    description; positions are those of [starter_model_list]. *)
Definition add_starter_diffusers (starter_models : list (str * bool))
    (existing : gset str) : result Widgets :=
  let starter_model_list := starter_models.*1 in
  let recommended_models := (filter (λ kv, kv.2 = true) starter_models).*1 in
  let show_recommended := bool_decide (existing = ∅) in
  v ← comprehension
         (λ x, mret (show_recommended && bool_decide (x ∈ recommended_models)
                     || bool_decide (x ∈ existing)))
         (λ x, index x starter_model_list)
         starter_model_list;
  mret (mkWidgets (Some (mkMultiSelect starter_model_list v))
                  None (Some false) None None).

(** [add_model_widgets]: generic code to create model selection widgets. *)
Definition add_model_widgets (predefined_models : gmap str bool)
    : result Widgets :=
  let model_list := sorted (keys predefined_models) in
  ms ← (if decide (0 < length model_list)%nat
        then v ← comprehension (λ x, dict_getitem predefined_models x)
                               (λ x, index x model_list)
                               model_list;
             mret (Some (mkMultiSelect model_list v))
        else mret None);
  mret (mkWidgets ms (Some []) None None None).

(** [add_diffusers_widgets]: the same, with the purge checkbox and the
    autoload directory. *)
Definition add_diffusers_widgets (predefined_models : gmap str bool)
    : result Widgets :=
  widgets ← add_model_widgets predefined_models;
  mret (mkWidgets (models_selected widgets) (download_ids widgets)
                  (Some false) (Some None) (Some false)).

Definition create (env : Environment) : result addModelsForm :=
  let starter_models := env_starter_models env in
  let installed_diffusers :=
    list_additional_diffusers_models (env_model_info env) starter_models in
  w_starter ← add_starter_diffusers starter_models (env_existing_models env);
  w_diffusers ← add_diffusers_widgets installed_diffusers;
  w_cn ← add_model_widgets (env_controlnet_models env);
  w_lora ← add_model_widgets (env_lora_models env);
  w_ti ← add_model_widgets (env_ti_models env);
  mret (mkForm starter_models.*1 (env_existing_models env)
               installed_diffusers (env_controlnet_models env)
               (env_lora_models env) (env_ti_models env)
               w_starter w_diffusers w_cn w_lora w_ti).

(** *** What the user does to the form before pressing the button *)

Record Edits := mkEdits {
  starter_checked : list nat;
  starter_purge : bool;
  diffusers_checked : list nat;
  diffusers_text : str;
  diffusers_purge : bool;
  diffusers_directory : option str;
  diffusers_autoscan : bool;
  cn_checked : list nat;
  cn_text : str;
  lora_checked : list nat;
  lora_text : str;
  ti_checked : list nat;
  ti_text : str;
}.

(** Each setter changes the value of a widget that exists and leaves a
    missing one missing. *)
Definition set_checked (v : list nat) (g : Widgets) : Widgets :=
  mkWidgets ((λ w, mkMultiSelect (values w) v) <$> models_selected g)
            (download_ids g) (purge_deleted g) (autoload_directory g)
            (autoscan_checkbox g).
Definition set_text (t : str) (g : Widgets) : Widgets :=
  mkWidgets (models_selected g) ((λ _, t) <$> download_ids g)
            (purge_deleted g) (autoload_directory g) (autoscan_checkbox g).
Definition set_purge (b : bool) (g : Widgets) : Widgets :=
  mkWidgets (models_selected g) (download_ids g)
            ((λ _, b) <$> purge_deleted g) (autoload_directory g)
            (autoscan_checkbox g).
Definition set_directory (d : option str) (b : bool) (g : Widgets) : Widgets :=
  mkWidgets (models_selected g) (download_ids g) (purge_deleted g)
            ((λ _, d) <$> autoload_directory g)
            ((λ _, b) <$> autoscan_checkbox g).

Definition edit (u : Edits) (f : addModelsForm) : addModelsForm :=
  mkForm (starter_model_list f) (existing_models f)
    (installed_diffusers_models f) (installed_cn_models f)
    (installed_lora_models f) (installed_ti_models f)
    (set_purge (starter_purge u)
       (set_checked (starter_checked u) (starter_diffusers_models f)))
    (set_directory (diffusers_directory u) (diffusers_autoscan u)
       (set_purge (diffusers_purge u)
          (set_text (diffusers_text u)
             (set_checked (diffusers_checked u) (diffusers_models f)))))
    (set_text (cn_text u) (set_checked (cn_checked u) (controlnet_models f)))
    (set_text (lora_text u) (set_checked (lora_checked u) (lora_models f)))
    (set_text (ti_text u) (set_checked (ti_checked u) (ti_models f))).

(** The form as it stands when [marshall_arguments] runs. *)
Definition form (env : Environment) (u : Edits) : result addModelsForm :=
  edit u <$> create env.

(** The list a multi-select made by [add_model_widgets] shows. *)
Definition shown_models (d : gmap str bool) : list str := sorted (keys d).

(** Checked positions are positions of the list shown. *)
Definition valid_positions {A} (shown : list A) (checked : list nat) : Prop :=
  Forall (λ i, (i < length shown)%nat) checked.

Definition valid_edits (env : Environment) (u : Edits) : Prop :=
  valid_positions (env_starter_models env) (starter_checked u)
  ∧ valid_positions
      (shown_models
         (list_additional_diffusers_models (env_model_info env)
                                           (env_starter_models env)))
      (diffusers_checked u)
  ∧ valid_positions (shown_models (env_controlnet_models env)) (cn_checked u)
  ∧ valid_positions (shown_models (env_lora_models env)) (lora_checked u)
  ∧ valid_positions (shown_models (env_ti_models env)) (ti_checked u).

(** The names at the checked positions. *)
Definition names_at (shown : list str) (checked : list nat) : list str :=
  omap (λ i, shown !! i) checked.

(** [x] is the name at one of the checked positions. *)
Definition checked_at (shown : list str) (checked : list nat) (x : str) : Prop :=
  ∃ i, i ∈ checked ∧ shown !! i = Some x.

(** The checked names of the list shown are exactly the installed ones. *)
Definition selects_installed (installed : str → Prop) (shown : list str)
    (checked : list nat) : Prop :=
  ∀ x, x ∈ shown → checked_at shown checked x ↔ installed x.

(** The user changed nothing: in every tab the checked names are exactly
    the installed ones, and no free-text box holds an entry. *)
Definition unchanged_selection (env : Environment) (u : Edits) : Prop :=
  let more := list_additional_diffusers_models (env_model_info env)
                                                (env_starter_models env) in
  selects_installed (λ x, x ∈ env_existing_models env)
                    (env_starter_models env).*1 (starter_checked u)
  ∧ selects_installed (λ x, more !! x = Some true) (shown_models more)
                      (diffusers_checked u)
  ∧ selects_installed (λ x, env_controlnet_models env !! x = Some true)
                      (shown_models (env_controlnet_models env)) (cn_checked u)
  ∧ selects_installed (λ x, env_lora_models env !! x = Some true)
                      (shown_models (env_lora_models env)) (lora_checked u)
  ∧ selects_installed (λ x, env_ti_models env !! x = Some true)
                      (shown_models (env_ti_models env)) (ti_checked u)
  ∧ split (diffusers_text u) = [] ∧ split (cn_text u) = []
  ∧ split (lora_text u) = [] ∧ split (ti_text u) = [].

(** *** Closed forms of what [marshall_arguments] leaves in [selections] *)

Definition to_install (installed : gmap str bool) (shown : list str)
    (checked : list nat) : list str :=
  filter (λ x, installed !! x = Some false) (names_at shown checked).

Definition to_remove (installed : gmap str bool) (shown : list str)
    (checked : list nat) : list str :=
  filter (λ x, installed !! x = Some true ∧ x ∉ names_at shown checked) shown.

Definition plan (env : Environment) (u : Edits) (s : UserSelections)
    : UserSelections :=
  let starter_list := (env_starter_models env).*1 in
  let existing := env_existing_models env in
  let more := list_additional_diffusers_models (env_model_info env)
                                                (env_starter_models env) in
  let starter_models := dict_keys (names_at starter_list (starter_checked u)) in
  let category (d : gmap str bool) (checked : list nat)
               (old : list str * list str) :=
    if decide (0 < length (shown_models d))%nat
    then (to_install d (shown_models d) checked,
          to_remove d (shown_models d) checked)
    else old in
  let cn := category (env_controlnet_models env) (cn_checked u)
                     (install_cn_models s, remove_cn_models s) in
  let lora := category (env_lora_models env) (lora_checked u)
                       (install_lora_models s, remove_lora_models s) in
  let ti := category (env_ti_models env) (ti_checked u)
                     (install_ti_models s, remove_ti_models s) in
  mkUserSelections
    (filter (λ x, x ∉ existing) starter_models)
    (filter (λ x, x ∈ existing ∧ x ∉ starter_models) starter_list
       ++ to_remove more (shown_models more) (diffusers_checked u))
    (starter_purge u || diffusers_purge u)
    (cn.1 ++ filter (λ x, slash ∈ x) (split (cn_text u)))
    cn.2
    (lora.1 ++ split (lora_text u))
    lora.2
    (ti.1 ++ split (ti_text u))
    ti.2
    (diffusers_directory u)
    (diffusers_autoscan u)
    (split (diffusers_text u)).

(** *** Concrete sessions *)

(** Two starter models, the first one recommended and already installed; one
    more diffusers model on disk; two LoRA candidates, one of them
    installed; no ControlNet model and no embedding. *)
Definition demo_env : Environment :=
  mkEnv [(lit "sd-1.5", true); (lit "sd-2.1", false)]
        {[ lit "sd-1.5" ]}
        {[ lit "my-model" := lit "diffusers"; lit "old" := lit "ckpt" ]}
        ∅
        {[ lit "lora-a" := true; lit "lora-b" := false ]}
        ∅.

(** Every box unchecked, nothing typed. *)
Definition uncheck_all : Edits :=
  mkEdits [] false [] [] false None false [] [] [] [] [] [].

(** What is installed stays checked, nothing typed. *)
Definition unchanged : Edits :=
  mkEdits [0%nat] false [0%nat] [] false None false [] [] [0%nat] [] [] [].

(** As [unchanged], with [foo org/model-a] typed in the ControlNet box. *)
Definition typed_controlnet : Edits :=
  mkEdits [0%nat] false [0%nat] [] false None false
          [] (lit "foo org/model-a") [0%nat] [] [] [].

(** The installed LoRA unchecked and its name typed in the LoRA box. *)
Definition retyped_lora : Edits :=
  mkEdits [0%nat] false [0%nat] [] false None false
          [] [] [] (lit "lora-a") [] [].

(** As [unchanged], with the purge box of the starter tab ticked and the
    one of the diffusers tab not. *)
Definition purge_on_starter_tab : Edits :=
  mkEdits [0%nat] true [0%nat] [] false None false [] [] [0%nat] [] [] [].

(** Two entries typed in each free-text box. *)
Definition typed_everywhere : Edits :=
  mkEdits [0%nat] false [0%nat] (lit "org/model-a org/model-b") false None
          false [] (lit "org/model-a org/model-b")
          [0%nat] (lit "org/model-a org/model-b")
          [] (lit "org/model-a org/model-b").

End Reconcile.

(* ===================================================================== *)
(** ** Out-of-process installation: worker, pipe and controller poll *)
(* ===================================================================== *)

Module Orchestrator.
Import Py.

(** The completion marker, ['*done*']. *)
Definition sentinel : str := lit "*done*".

(** *** The pipe made by [Pipe()] in [on_execute]

    The worker holds the writing end ([conn_out]), the controller the
    reading end ([parent_conn]).  [inbox] holds the messages written and not
    yet read, oldest first; [writer_closed] says that no writing end is left
    open (the controller closes its copy of [child_conn] right after
    [p.start()], so this is the worker closing its own, or exiting). *)
Record Pipe := mkPipe {
  inbox : list bytes;
  writer_closed : bool;
}.

Definition empty_pipe : Pipe := mkPipe [] false.

(** [c.poll()]: something can be read, be it a message or the end of the
    stream.  A pipe whose writing end is closed is ready for reading, and
    stays so: reading at the end of the stream takes nothing out of it. *)
Definition poll (p : Pipe) : bool :=
  match inbox p with
  | [] => writer_closed p
  | _ :: _ => true
  end.

(** [c.recv_bytes()]: the oldest message; [EOFError] when nothing is left
    and the writing end is closed; [None] when the call would block. *)
Definition recv_bytes (p : Pipe) : option (result bytes * Pipe) :=
  match inbox p with
  | m :: rest => Some (inr m, mkPipe rest (writer_closed p))
  | [] => if writer_closed p then Some (raise EOFError, p) else None
  end.

(** What the worker does to its end. *)
Inductive ChannelOp :=
  | send_bytes (b : bytes)
  | close.

Definition perform (op : ChannelOp) (p : Pipe) : Pipe :=
  match op with
  | send_bytes b => mkPipe (inbox p ++ [b]) (writer_closed p)
  | close => mkPipe (inbox p) true
  end.

(** *** The worker: [process_and_execute] *)

(** A worker computation: the channel operations performed so far and how
    it went on. *)
Definition W (A : Type) : Type := (list ChannelOp * result A)%type.

#[global] Instance W_ret : MRet W := λ A x, ([], inr x).
#[global] Instance W_bind : MBind W := λ A B f m,
  match m with
  | (ops, inl e) => (ops, inl e)
  | (ops, inr x) => let '(ops', r) := f x in (ops ++ ops', r)
  end.

Definition do (op : ChannelOp) : W unit := ([op], inr ()).
Definition throw {A} (e : exn) : W A := ([], inl e).

(** [StderrToMessage.write] *)
Definition write (data : str) : W unit :=
  match utf8_encode data with
  | inl e => throw e
  | inr b => do (send_bytes b)
  end.

(** One call of [install_requested_models], as the worker sees it: the text
    it writes to [sys.stdout], [sys.stderr] and the logger, one [write] per
    item, and whether it returns or raises. *)
Record InstallerRun := mkRun {
  output : list str;
  outcome : result unit;
}.

Fixpoint write_all (out : list str) : W unit :=
  match out with
  | [] => mret ()
  | data :: rest => _ ← write data; write_all rest
  end.

(** The call with the streams redirected to the connection or not. *)
Definition install_requested_models (redirected : bool) (r : InstallerRun)
    : W unit :=
  _ ← (if redirected then write_all (output r) else mret ());
  ([], outcome r).

Inductive Connection := conn.

Definition process_and_execute (conn_out : option Connection)
    (r : InstallerRun) : W unit :=
  (* stderr, stdout and the logger go to conn_out when it is given *)
  _ ← install_requested_models (bool_decide (is_Some conn_out)) r;
  match conn_out with
  | Some _ =>
      match utf8_encode sentinel with
      | inl e => throw e
      | inr b => _ ← do (send_bytes b); do close
      end
  | None => mret ()
  end.

(** *** The controller: [addModelsForm.while_waiting] *)

(** The [BufferPager] behind [self.monitor.entry_widget]. *)
Record BufferPager := mkPager {
  pager_values : list str;
  width : nat;
}.

(** Modelled from the spec: the [buffer] method of the log widget
    ([BufferBox] of [.widgets], over npyscreen's pager) is the LogSink's
    [append]: the lines are added at the end of the scrollback, which is
    append-only. *)
Definition buffer (lines : list str) (m : BufferPager) : BufferPager :=
  mkPager (pager_values m ++ lines) (width m).

(** The attributes of [addModelsForm] that [while_waiting] reads and
    writes. *)
Record Form := mkForm {
  subprocess_connection : option Connection;
  monitor : BufferPager;
}.

(** [app.addForm("MAIN", addModelsForm, ...)]: [create] leaves the new form
    without a connection and with an empty monitor; the terminal, and so the
    monitor's width, is the same. *)
Definition addForm (w : nat) : Form := mkForm None (mkPager [] w).

(** What a tick shows: [Text lines] is a call
    [monitor_widget.buffer(lines, scroll_end=True)] of the [else] branch,
    [Completed] the branch taken on the sentinel. *)
Inductive LogEvent :=
  | Text (lines : list str)
  | Completed.

Definition action_complete : str := lit "** Action Complete **".
Definition newline : str := [10].
Definition subsequent_indent : str := lit "   ".

(** Where a call of [while_waiting] stands: how it ended, the form that is
    [app.main_form] afterwards, the pipe, and what was shown. *)
Record Polled := mkPolled {
  ended : result unit;
  main_form : Form;
  pipe : Pipe;
  events : list LogEvent;
}.

(** The bytes of a [str] that can be encoded. *)
Definition encoded (s : str) : bytes :=
  match utf8_encode s with inr b => b | inl _ => [] end.

Definition encodable (s : str) : Prop := utf8_encode s = inr (encoded s).

(** A chunk of log text: it can be sent and is not the sentinel. *)
Definition text_chunk (s : str) : Prop := encodable s ∧ s ≠ sentinel.

Section Controller.

(** [textwrap.wrap(text, width=..., subsequent_indent=...)] of the Python
    library, which returns the lines for any positive width; the width
    passed is that of the monitor on screen. *)
Variable wrap : str → nat → str → list str.

(** The loop [while c.poll(): ...].  [c] is the local name bound before the
    loop: the loop condition does not look at [self.subprocess_connection]
    again.  [None] means that the loop is still running when the fuel is
    used up. *)
Fixpoint poll_loop (fuel : nat) (self : Form) (p : Pipe)
    (evs : list LogEvent) : option Polled :=
  match fuel with
  | O => None
  | S fuel =>
      if poll p then
        match recv_bytes p with
        | None => None
        | Some (inl EOFError, p') | Some (inl OSError, p') =>
            (* except (EOFError, OSError): *)
            poll_loop fuel (mkForm None (monitor self)) p' evs
        | Some (inl e, p') => Some (mkPolled (inl e) self p' evs)
        | Some (inr b, p') =>
            match utf8_decode b with
            | inl e => Some (mkPolled (inl e) self p' evs)
            | inr data =>
                let _ := strip newline data in
                if decide (data = sentinel) then
                  let monitor_widget := buffer [action_complete] (monitor self) in
                  (* rebuild the form, saving log messages *)
                  let saved_messages := pager_values monitor_widget in
                  let new_form := addForm (width monitor_widget) in
                  let new_monitor :=
                    buffer [lit ""]
                      (mkPager saved_messages (width (monitor new_form))) in
                  Some (mkPolled (inr ())
                          (mkForm (subprocess_connection new_form) new_monitor)
                          p' (evs ++ [Completed]))
                else
                  let lines :=
                    wrap data (width (monitor self)) subsequent_indent in
                  poll_loop fuel
                    (mkForm (subprocess_connection self)
                            (buffer lines (monitor self)))
                    p' (evs ++ [Text lines])
            end
        end
      else Some (mkPolled (inr ()) self p evs)
  end.

(** [while_waiting], called by the event loop on the form shown. *)
Definition while_waiting (fuel : nat) (self : Form) (p : Pipe)
    : option Polled :=
  match subprocess_connection self with
  | Some c => poll_loop fuel self p []
  | None => Some (mkPolled (inr ()) self p [])
  end.

(** *** Worker and controller side by side *)

(** The controller's form, the pipe, and what the worker process has yet to
    do to its end of the pipe. *)
Record System := mkSystem {
  shown : Form;
  channel : Pipe;
  worker : list ChannelOp;
}.

Inductive Step := Work | Tick.

(** The worker performs its next operation; when none is left the process
    has exited and its end of the pipe is closed with it. *)
Definition work (sys : System) : System :=
  match worker sys with
  | op :: rest => mkSystem (shown sys) (perform op (channel sys)) rest
  | [] => mkSystem (shown sys) (perform close (channel sys)) []
  end.

(** Runs a schedule; the events of the ticks are collected in order.  A
    tick that raises stops the run. *)
Fixpoint run (fuel : nat) (sched : list Step) (sys : System)
    (evs : list LogEvent) : option (result unit * System * list LogEvent) :=
  match sched with
  | [] => Some (inr (), sys, evs)
  | Work :: rest => run fuel rest (work sys) evs
  | Tick :: rest =>
      match while_waiting fuel (shown sys) (channel sys) with
      | None => None
      | Some r =>
          let sys' := mkSystem (main_form r) (pipe r) (worker sys) in
          match ended r with
          | inl e => Some (inl e, sys', evs ++ events r)
          | inr _ => run fuel rest sys' (evs ++ events r)
          end
      end
  end.

(** A chunk wrapped to the width of the monitor. *)
Definition wrapped (w : nat) (c : str) : list str := wrap c w subsequent_indent.

(** What the ticks show when the chunks [cs] and then the sentinel have
    been read. *)
Definition expected_events (w : nat) (cs : list str) : list LogEvent :=
  (Text ∘ wrapped w <$> cs) ++ [Completed].

(** The system while the worker sends the chunks [cs] and then the sentinel:
    [i] chunks have been shown, [j] messages have been written. *)
Definition streaming (lines : list str) (w : nat) (cs : list str)
    (i j : nat) (closed : bool) : System :=
  let items := cs ++ [sentinel] in
  mkSystem
    (mkForm (Some conn)
            (mkPager (lines ++ concat (wrapped w <$> take i cs)) w))
    (mkPipe (encoded <$> drop i (take j items)) closed)
    ((send_bytes ∘ encoded <$> drop j items)
       ++ (if closed then [] else [close])).

End Controller.

(** *** Notions used to state what worker and controller do together *)

(** The system [on_execute] leaves behind: the form holds the reading end
    of a new pipe, and the worker process is about to run
    [process_and_execute] with the writing end. *)
Definition spawned (lines : list str) (w : nat) (r : InstallerRun) : System :=
  mkSystem (mkForm (Some conn) (mkPager lines w)) empty_pipe
           (process_and_execute (Some conn) r).1.

(** The number of worker steps of a schedule. *)
Fixpoint works (sched : list Step) : nat :=
  match sched with
  | [] => 0
  | Work :: rest => S (works rest)
  | Tick :: rest => works rest
  end.

(** Some tick of the schedule comes after at least [n] worker steps. *)
Definition polls_after (n : nat) (sched : list Step) : Prop :=
  ∃ pre post, sched = pre ++ Tick :: post ∧ (n ≤ works pre)%nat.

(** With [n] chunks to send: [i] chunks shown, [j] messages written, the
    sentinel being message [n + 1]. *)
Definition reachable (n i j : nat) (closed : bool) : Prop :=
  (i ≤ j)%nat ∧ (i ≤ n)%nat ∧ (j ≤ S n)%nat ∧ (closed = true → j = S n).

(** *** Concrete runs *)

(** Stands for [textwrap.wrap] in the concrete runs, whose texts fit on one
    line. *)
Definition one_line (text : str) (w : nat) (indent : str) : list str := [text].

Definition fetching_x : str := lit "Fetching model X".
Definition fetching_y : str := lit "Fetching model Y".

(** The monitor after [on_execute]. *)
Definition processing : list str := [lit "Processing..."].

(** The installer writes one line and raises. *)
Definition installer_fails : InstallerRun :=
  mkRun [fetching_x] (inl InstallerError).

(** The installer writes two lines and returns. *)
Definition installer_succeeds : InstallerRun :=
  mkRun [fetching_x; fetching_y] (inr ()).

(** A tick after each write of the worker, and one more. *)
Definition tick_per_write : list Step :=
  [Work; Tick; Work; Tick; Work; Tick; Tick].

End Orchestrator.

(* ===================================================================== *)
(** ** Facts about the Python values *)
(* ===================================================================== *)

Module PyFacts.
Import Py.

Lemma to_N_byte_of_N n : n < 256 → Byte.to_N (byte_of_N n) = n.
Proof.
  intros Hn. unfold byte_of_N.
  destruct (Byte.of_N n) as [b|] eqn:E.
  - simpl. by apply Byte.to_of_N.
  - apply Byte.of_N_None_iff in E. lia.
Qed.

(** Decides the comparisons of a goal one after the other, closing the
    branches that arithmetic excludes. *)
Ltac compare_step :=
  match goal with
  | |- context [?a <? ?b] => destruct (N.ltb_spec a b); try lia
  | |- context [?a <=? ?b] => destruct (N.leb_spec a b); try lia
  end.

Lemma digits c k : 0 < k → c = k * (c / k) + c mod k ∧ c mod k < k.
Proof. intros. split; [apply N.div_mod|apply N.mod_lt]; lia. Qed.

Lemma decode_encode_codepoint c bs rest :
  encode_codepoint c = inr bs →
  utf8_decode ((byte_of_N <$> bs) ++ rest) = cons c <$> utf8_decode rest.
Proof.
  unfold encode_codepoint, surrogate, raise.
  destruct (digits c 64) as [E0 L0]; [lia|].
  destruct (digits (c / 64) 64) as [E1 L1]; [lia|].
  destruct (digits (c / 4096) 64) as [E2 L2]; [lia|].
  assert (c / 4096 = c / 64 / 64) as E12 by (by rewrite N.Div0.div_div).
  assert (c / 262144 = c / 4096 / 64) as E23 by (by rewrite N.Div0.div_div).
  set (d0 := c mod 64) in *. set (d1 := (c / 64) mod 64) in *.
  set (d2 := (c / 4096) mod 64) in *.
  set (q1 := c / 64) in *. set (q2 := c / 4096) in *. set (q3 := c / 262144) in *.
  repeat compare_step; cbn [andb]; intros [= <-];
    cbn [fmap list_fmap app utf8_decode];
    rewrite !to_N_byte_of_N by lia;
    unfold continuation, surrogate;
    repeat compare_step; cbn [andb negb]; do 2 f_equal; lia.
Qed.

Lemma decode_encode s b : utf8_encode s = inr b → utf8_decode b = inr s.
Proof.
  revert b. induction s as [|c s IH]; intros b; simpl.
  - by intros [= <-].
  - destruct (encode_codepoint c) as [|bs] eqn:Ec; [done|]. simpl.
    destruct (utf8_encode s) as [|rest] eqn:Es; [done|]. simpl.
    intros [= <-]. rewrite (decode_encode_codepoint _ _ _ Ec), (IH rest); done.
Qed.

(** *** Lists and dictionaries *)

Lemma index_lookup `{EqDecision A} (x : A) l i :
  index x l = inr i → l !! i = Some x ∧ ∀ j, (j < i)%nat → l !! j ≠ Some x.
Proof.
  revert i. induction l as [|y l IH]; intros i; simpl; [done|].
  destruct (decide (x = y)) as [->|Hne].
  - intros [= <-]. split; [done|lia].
  - destruct (index x l) as [|k] eqn:E; simpl; [done|]. intros [= <-].
    destruct (IH k eq_refl) as [Hk Hmin]. split; [done|].
    intros [|j] Hj; simpl; [congruence|]. apply Hmin. lia.
Qed.

Lemma index_elem_of `{EqDecision A} (x : A) l :
  x ∈ l → ∃ i, index x l = inr i.
Proof.
  induction l as [|y l IH]; [by intros ?%elem_of_nil|].
  intros Hx. simpl. destruct (decide (x = y)); [by eexists|].
  apply elem_of_cons in Hx as [?|Hx]; [done|].
  destruct (IH Hx) as [i ->]. by eexists.
Qed.

Lemma index_NoDup `{EqDecision A} (x : A) l i j :
  NoDup l → index x l = inr i → l !! j = Some x → j = i.
Proof.
  intros Hnd Hi Hj. apply index_lookup in Hi as [Hi _].
  by eapply NoDup_lookup.
Qed.

Lemma comprehension_pure {A B} (cond : A → result bool) (elt : A → result B)
    (c : A → bool) (e : A → B) l :
  (∀ x, x ∈ l → cond x = inr (c x)) →
  (∀ x, x ∈ l → c x = true → elt x = inr (e x)) →
  comprehension cond elt l = inr (e <$> filter (λ x, c x = true) l).
Proof.
  induction l as [|x l IH]; intros Hc He; [done|].
  assert (comprehension cond elt l = inr (e <$> filter (λ x, c x = true) l))
    as IH' by (apply IH; eauto using list_elem_of_further).
  simpl. rewrite (Hc x) by apply list_elem_of_here. simpl.
  rewrite filter_cons. destruct (c x) eqn:Ex.
  - rewrite decide_True by done.
    rewrite (He x) by (done || apply list_elem_of_here). simpl.
    by rewrite IH'.
  - by rewrite decide_False by done.
Qed.

Lemma mapM_getitem {A} (l : list A) (idx : list nat) :
  Forall (λ i, (i < length l)%nat) idx →
  mapM (getitem l) idx = inr (omap (λ i, l !! i) idx).
Proof.
  induction 1 as [|i idx Hi _ IH]; [done|].
  destruct (lookup_lt_is_Some_2 l i Hi) as [x Hx].
  assert (getitem l i = inr x) as Hg by (unfold getitem; by rewrite Hx).
  cbn [mapM]. rewrite Hg, IH. simpl. by rewrite Hx.
Qed.

Lemma elem_of_omap_lookup {A} (l : list A) (idx : list nat) x :
  x ∈ omap (λ i, l !! i) idx ↔ ∃ i, i ∈ idx ∧ l !! i = Some x.
Proof. apply list_elem_of_omap. Qed.

Lemma elem_of_dict_keys_from `{EqDecision K} (seen items : list K) x :
  x ∈ dict_keys_from seen items ↔ x ∈ items ∧ x ∉ seen.
Proof.
  revert seen. induction items as [|k r IH]; intros seen; simpl.
  - rewrite elem_of_nil. tauto.
  - destruct (decide (k ∈ seen)) as [Hk|Hk].
    + rewrite IH, elem_of_cons. intuition congruence.
    + rewrite elem_of_cons, IH, !elem_of_cons.
      destruct (decide (x = k)) as [->|]; intuition congruence.
Qed.

Lemma elem_of_dict_keys `{EqDecision K} (items : list K) x :
  x ∈ dict_keys items ↔ x ∈ items.
Proof.
  unfold dict_keys. rewrite elem_of_dict_keys_from, elem_of_nil. tauto.
Qed.

Lemma sorted_Permutation l : sorted l ≡ₚ l.
Proof. apply merge_sort_Permutation. Qed.

Lemma elem_of_sorted l x : x ∈ sorted l ↔ x ∈ l.
Proof. by rewrite sorted_Permutation. Qed.

Lemma elem_of_keys {V} (d : gmap str V) x : x ∈ keys d ↔ is_Some (d !! x).
Proof.
  unfold keys. rewrite list_elem_of_fmap. split.
  - intros [[k v] [-> Hkv]]. apply elem_of_map_to_list in Hkv. by eexists.
  - intros [v Hv]. exists (x, v). split; [done|]. by apply elem_of_map_to_list.
Qed.

Lemma NoDup_sorted_keys {V} (d : gmap str V) : NoDup (sorted (keys d)).
Proof. rewrite sorted_Permutation. apply NoDup_fst_map_to_list. Qed.

Lemma elem_of_sorted_keys {V} (d : gmap str V) x :
  x ∈ sorted (keys d) ↔ is_Some (d !! x).
Proof. by rewrite elem_of_sorted, elem_of_keys. Qed.

Lemma length_sorted l : length (sorted l) = length l.
Proof. by rewrite sorted_Permutation. Qed.

End PyFacts.

(* ===================================================================== *)
(** ** Facts about the reconciliation *)
(* ===================================================================== *)

Module ReconcileFacts.
Import Py Reconcile PyFacts.

Lemma filter_ext_in {A} (P Q : A → Prop) `{!∀ x, Decision (P x)}
    `{!∀ x, Decision (Q x)} (l : list A) :
  (∀ x, x ∈ l → P x ↔ Q x) → filter P l = filter Q l.
Proof.
  induction l as [|x l IH]; intros HPQ; [done|].
  rewrite !filter_cons.
  assert (filter P l = filter Q l) as ->
    by (apply IH; eauto using list_elem_of_further).
  pose proof (HPQ x (list_elem_of_here _ _)).
  destruct (decide (P x)), (decide (Q x)); tauto || done.
Qed.

Lemma checked_not_installed_pure installed shown checked :
  valid_positions shown checked →
  (∀ x, x ∈ shown → is_Some (installed !! x)) →
  checked_not_installed installed (mkMultiSelect shown checked)
  = inr (to_install installed shown checked).
Proof.
  intros Hv Hk. unfold checked_not_installed, to_install, names_at.
  cbn [values value].
  induction Hv as [|i idx Hi _ IH]; [done|].
  destruct (lookup_lt_is_Some_2 shown i Hi) as [x Hx].
  destruct (Hk x) as [b Hb]; [by eapply list_elem_of_lookup_2|].
  assert (getitem shown i = inr x) as Hg by (unfold getitem; by rewrite Hx).
  assert (dict_getitem installed x = inr b) as Hd
    by (unfold dict_getitem; by rewrite Hb).
  cbn [comprehension omap list_omap]. rewrite Hg. cbn [mbind result_bind].
  rewrite Hd. cbn [mbind result_bind mret result_ret].
  rewrite Hx, filter_cons. destruct b; cbn [negb].
  - rewrite decide_False by congruence. apply IH.
  - rewrite decide_True by done. fold (@omap list _ _ _ (λ i, shown !! i) idx). by rewrite IH.
Qed.

Lemma installed_unchecked_pure installed shown checked :
  NoDup shown →
  (∀ x, x ∈ shown → is_Some (installed !! x)) →
  installed_unchecked installed (mkMultiSelect shown checked)
  = inr (to_remove installed shown checked).
Proof.
  intros Hnd Hk. unfold installed_unchecked, to_remove. simpl.
  set (c := λ x : str,
    match installed !! x with
    | Some true =>
        match index x shown with
        | inr i => bool_decide (i ∉ checked)
        | inl _ => false
        end
    | _ => false
    end).
  rewrite (comprehension_pure _ _ c id).
  - rewrite list_fmap_id. f_equal. apply filter_ext_in. intros x Hx.
    unfold c. destruct (installed !! x) as [[]|]; [|split; [done|intros [[=] _]]..].
    destruct (index_elem_of x shown Hx) as [i Hi]. rewrite Hi.
    rewrite bool_decide_eq_true.
    unfold names_at. rewrite elem_of_omap_lookup.
    split.
    + intros Hni. split; [done|]. intros (j & Hj & Hjx).
      by rewrite (index_NoDup x shown i j Hnd Hi Hjx) in Hj.
    + intros [_ Hn] Hi'. apply Hn. exists i. split; [done|].
      by apply index_lookup in Hi as [? _].
  - intros x Hx. destruct (Hk x Hx) as [b Hb]. unfold c, dict_getitem.
    rewrite Hb. destruct b; simpl; [|done].
    destruct (index_elem_of x shown Hx) as [i ->]. done.
  - done.
Qed.


Lemma add_starter_diffusers_ok starter_models existing :
  ∃ v, add_starter_diffusers starter_models existing
       = inr (mkWidgets (Some (mkMultiSelect starter_models.*1 v))
                        None (Some false) None None).
Proof.
  unfold add_starter_diffusers.
  erewrite (comprehension_pure _ _ _
              (λ x, match index x starter_models.*1 with
                    | inr i => i | inl _ => 0%nat end)).
  - by eexists.
  - done.
  - intros x Hx _. by destruct (index_elem_of x _ Hx) as [i ->].
Qed.

Lemma add_model_widgets_ok d :
  ∃ v, add_model_widgets d
       = inr (mkWidgets
                (if decide (0 < length (shown_models d))%nat
                 then Some (mkMultiSelect (shown_models d) v) else None)
                (Some []) None None None).
Proof.
  unfold add_model_widgets. fold (shown_models d).
  destruct (decide (0 < length (shown_models d))%nat); [|by exists []].
  erewrite (comprehension_pure _ _
              (λ x, default false (d !! x))
              (λ x, match index x (shown_models d) with
                    | inr i => i | inl _ => 0%nat end)).
  - by eexists.
  - intros x [b Hb]%elem_of_sorted_keys. unfold dict_getitem. by rewrite Hb.
  - intros x Hx _. by destruct (index_elem_of x _ Hx) as [i ->].
Qed.

Lemma create_ok env :
  ∃ v0 v1 v2 v3 v4,
    create env =
    inr (Reconcile.mkForm (env_starter_models env).*1 (env_existing_models env)
      (list_additional_diffusers_models (env_model_info env)
                                        (env_starter_models env))
      (env_controlnet_models env) (env_lora_models env) (env_ti_models env)
      (mkWidgets (Some (mkMultiSelect (env_starter_models env).*1 v0))
                 None (Some false) None None)
      (let d := list_additional_diffusers_models (env_model_info env)
                                                 (env_starter_models env) in
       mkWidgets (if decide (0 < length (shown_models d))%nat
                  then Some (mkMultiSelect (shown_models d) v1) else None)
                 (Some []) (Some false) (Some None) (Some false))
      (let d := env_controlnet_models env in
       mkWidgets (if decide (0 < length (shown_models d))%nat
                  then Some (mkMultiSelect (shown_models d) v2) else None)
                 (Some []) None None None)
      (let d := env_lora_models env in
       mkWidgets (if decide (0 < length (shown_models d))%nat
                  then Some (mkMultiSelect (shown_models d) v3) else None)
                 (Some []) None None None)
      (let d := env_ti_models env in
       mkWidgets (if decide (0 < length (shown_models d))%nat
                  then Some (mkMultiSelect (shown_models d) v4) else None)
                 (Some []) None None None)).
Proof.
  unfold create, add_diffusers_widgets.
  destruct (add_starter_diffusers_ok (env_starter_models env)
              (env_existing_models env)) as [v0 ->].
  destruct (add_model_widgets_ok
              (list_additional_diffusers_models (env_model_info env)
                 (env_starter_models env))) as [v1 ->].
  destruct (add_model_widgets_ok (env_controlnet_models env)) as [v2 ->].
  destruct (add_model_widgets_ok (env_lora_models env)) as [v3 ->].
  destruct (add_model_widgets_ok (env_ti_models env)) as [v4 ->].
  by exists v0, v1, v2, v3, v4.
Qed.

Lemma additional_not_starter info starters x :
  x ∈ starters.*1 → list_additional_diffusers_models info starters !! x = None.
Proof.
  intros Hx. unfold list_additional_diffusers_models.
  rewrite lookup_fmap. destruct (filter _ info !! x) as [fmt|] eqn:E; [|done].
  apply map_lookup_filter_Some in E as [_ [_ Hn]]. done.
Qed.

Lemma additional_all_installed info starters x b :
  list_additional_diffusers_models info starters !! x = Some b → b = true.
Proof.
  unfold list_additional_diffusers_models. rewrite lookup_fmap.
  destruct (filter _ info !! x); by intros [= <-].
Qed.


Lemma is_Some_shown (d : gmap str bool) x :
  x ∈ shown_models d → is_Some (d !! x).
Proof. apply elem_of_sorted_keys. Qed.

Lemma eval_bind {A B} (x : A) (k : A → M B) s :
  (eval (inr x) ≫= k) s = k x s.
Proof. done. Qed.
Lemma assign_bind {B} f (k : () → M B) s : (assign f ≫= k) s = k () (f s).
Proof. done. Qed.
Lemma attr_bind {A B} (g : UserSelections → A) (k : A → M B) s :
  (attr g ≫= k) s = k (g s) s.
Proof. done. Qed.
Lemma ret_bind {A B} (x : A) (k : A → M B) s : (mret x ≫= k) s = k x s.
Proof. done. Qed.

(** One statement of a body running on [s]. *)
Ltac statement :=
  first [ rewrite eval_bind | rewrite assign_bind | rewrite attr_bind
        | rewrite ret_bind ];
  cbn beta.

(** The block of one category with a multi-select: both lists are
    assigned when the widget exists, none otherwise. *)
Lemma category_block {B} d shown v checked
    (set_i set_r : list str → UserSelections → UserSelections)
    (k : () → M B) s :
  valid_positions shown checked → NoDup shown →
  (∀ x, x ∈ shown → is_Some (d !! x)) →
  (match (λ w, mkMultiSelect (values w) checked) <$>
         (if decide (0 < length shown)%nat
          then Some (mkMultiSelect shown v) else None) with
   | Some w =>
       ins ← eval (checked_not_installed d w);
       _ ← assign (set_i ins);
       rem ← eval (installed_unchecked d w);
       assign (set_r rem)
   | None => mret ()
   end ≫= k) s
  = k () (if decide (0 < length shown)%nat
          then set_r (to_remove d shown checked)
                     (set_i (to_install d shown checked) s)
          else s).
Proof.
  intros Hv Hnd Hk. destruct (decide _); cbn [fmap option_fmap option_map values];
    [|done].
  unfold mbind at 1.
  rewrite checked_not_installed_pure, installed_unchecked_pure by done.
  done.
Qed.

(** The block of the additional diffusers models: it only extends
    [remove_models]. *)
Lemma diffusers_block {B} d shown v checked (k : () → M B) s :
  NoDup shown → (∀ x, x ∈ shown → is_Some (d !! x)) →
  (match (λ w, mkMultiSelect (values w) checked) <$>
         (if decide (0 < length shown)%nat
          then Some (mkMultiSelect shown v) else None) with
   | Some w =>
       extra ← eval (installed_unchecked d w);
       old ← attr remove_models;
       assign (set_remove_models (old ++ extra))
   | None => mret ()
   end ≫= k) s
  = k () (set_remove_models (remove_models s ++ to_remove d shown checked) s).
Proof.
  intros Hnd Hk. destruct (decide _) as [|Hn];
    cbn [fmap option_fmap option_map values].
  - unfold mbind at 1. by rewrite installed_unchecked_pure by done.
  - assert (shown = []) as -> by (destruct shown; [done|simpl in Hn; lia]).
    unfold to_remove. rewrite filter_nil, app_nil_r. by destruct s.
Qed.

(** The block of a free-text box: the entries kept by [keep] are appended
    when there are entries at all. *)
Lemma text_block {B} (entries : list str) (keep : list str → list str)
    (get : UserSelections → list str)
    (set : list str → UserSelections → UserSelections) (k : () → M B) s :
  keep [] = [] → set (get s) s = s →
  (match entries with
   | [] => mret ()
   | x :: r => old ← attr get; assign (set (old ++ keep (x :: r)))
   end ≫= k) s
  = k () (set (get s ++ keep entries) s).
Proof.
  intros Hk Hid. destruct entries; [|done].
  by rewrite Hk, app_nil_r, Hid.
Qed.

Lemma set_get_install_cn s : set_install_cn_models (install_cn_models s) s = s.
Proof. by destruct s. Qed.
Lemma set_get_install_lora s :
  set_install_lora_models (install_lora_models s) s = s.
Proof. by destruct s. Qed.
Lemma set_get_install_ti s : set_install_ti_models (install_ti_models s) s = s.
Proof. by destruct s. Qed.

Lemma marshall_arguments_plan env u s :
  valid_edits env u →
  ∃ f, form env u = inr f ∧ marshall_arguments f s = (inr (), plan env u s).
Proof.
  intros (Hs & Hd & Hcn & Hlora & Hti).
  destruct (create_ok env) as (v0 & v1 & v2 & v3 & v4 & Hc).
  eexists. split; [unfold form; rewrite Hc; reflexivity|].
  unfold marshall_arguments, edit.
  cbn [starter_model_list existing_models installed_diffusers_models
       installed_cn_models installed_lora_models installed_ti_models
       starter_diffusers_models diffusers_models controlnet_models
       lora_models ti_models set_purge set_checked set_text set_directory
       models_selected download_ids purge_deleted autoload_directory
       autoscan_checkbox item fmap option_fmap option_map].
  statement. cbn [value].
  rewrite mapM_getitem
    by (unfold valid_positions in Hs; by rewrite length_fmap).
  fold (names_at (env_starter_models env).*1 (starter_checked u)).
  do 2 statement.
  replace (if starter_purge u then mret true
           else eval (inr (diffusers_purge u)))
    with (eval (inr (starter_purge u || diffusers_purge u)) : M bool)
    by (by destruct (starter_purge u)).
  do 6 statement.
  rewrite diffusers_block by (apply NoDup_sorted_keys || apply is_Some_shown).
  rewrite category_block
    by (done || apply NoDup_sorted_keys || apply is_Some_shown).
  statement.
  rewrite (text_block _ (filter (λ x, slash ∈ x)) install_cn_models
             set_install_cn_models); [|done|apply set_get_install_cn].
  rewrite category_block
    by (done || apply NoDup_sorted_keys || apply is_Some_shown).
  statement.
  rewrite (text_block _ (λ l, l) install_lora_models set_install_lora_models);
    [|done|apply set_get_install_lora].
  rewrite category_block
    by (done || apply NoDup_sorted_keys || apply is_Some_shown).
  statement.
  rewrite (text_block _ (λ l, l) install_ti_models set_install_ti_models);
    [|done|apply set_get_install_ti].
  do 3 statement. unfold assign, plan. f_equal.
  destruct s; repeat destruct (decide _); reflexivity.
Qed.
Lemma elem_of_names_at shown checked x :
  x ∈ names_at shown checked ↔ checked_at shown checked x.
Proof. apply elem_of_omap_lookup. Qed.

Lemma names_at_shown shown checked x : x ∈ names_at shown checked → x ∈ shown.
Proof.
  intros (i & _ & Hi)%elem_of_names_at. by eapply list_elem_of_lookup_2.
Qed.

Lemma elem_of_to_install d shown checked x :
  x ∈ to_install d shown checked ↔
  d !! x = Some false ∧ checked_at shown checked x.
Proof.
  unfold to_install. by rewrite list_elem_of_filter, elem_of_names_at.
Qed.

Lemma elem_of_to_remove d shown checked x :
  x ∈ to_remove d shown checked ↔
  (d !! x = Some true ∧ ¬ checked_at shown checked x) ∧ x ∈ shown.
Proof.
  unfold to_remove. by rewrite list_elem_of_filter, elem_of_names_at.
Qed.

Lemma shown_models_nonempty (d : gmap str bool) :
  d ≠ ∅ → (0 < length (shown_models d))%nat.
Proof.
  intros [x [b Hx]]%map_choose.
  assert (x ∈ shown_models d) as Hin by (apply elem_of_sorted_keys; by eexists).
  destruct (shown_models d); [by apply elem_of_nil in Hin|simpl; lia].
Qed.

(** Proves [valid_edits] and like conditions on a concrete session. *)
Ltac concrete := repeat split; repeat constructor; vm_compute; lia.

(** C1 (as amended). Starter tab: a name is on the install list exactly
    when it is checked and not already installed, and a name of the starter
    list is on the remove list exactly when it is installed and
    unchecked. *)
Theorem starter_install_and_remove env u s :
  valid_edits env u →
  ∃ f s', form env u = inr f ∧ marshall_arguments f s = (inr (), s') ∧
    let starter_list := (env_starter_models env).*1 in
    let checked := checked_at starter_list (starter_checked u) in
    let installed x := x ∈ env_existing_models env in
    (∀ x, x ∈ install_models s' ↔ checked x ∧ ¬ installed x) ∧
    (∀ x, x ∈ starter_list →
          x ∈ remove_models s' ↔ installed x ∧ ¬ checked x).
Proof.
  intros Hv. destruct (marshall_arguments_plan env u s Hv) as (f & Hf & Hm).
  exists f, (plan env u s). split; [done|]. split; [done|].
  cbn zeta. unfold plan; cbn [install_models remove_models]. split.
  - intros x.
    rewrite list_elem_of_filter, elem_of_dict_keys, elem_of_names_at. tauto.
  - intros x Hx.
    rewrite elem_of_app, list_elem_of_filter, elem_of_dict_keys,
      elem_of_names_at, elem_of_to_remove.
    rewrite (additional_not_starter _ _ _ Hx). intuition congruence.
Qed.

Lemma starter_install_and_remove_witness :
  valid_edits demo_env uncheck_all ∧
  ∃ f s', form demo_env uncheck_all = inr f
    ∧ marshall_arguments f fresh_selections = (inr (), s')
    ∧ (∀ x, x ∈ install_models s' ↔
            checked_at (env_starter_models demo_env).*1 [] x
            ∧ ¬ x ∈ env_existing_models demo_env)
    ∧ (∀ x, x ∈ (env_starter_models demo_env).*1 →
            x ∈ remove_models s' ↔
            x ∈ env_existing_models demo_env
            ∧ ¬ checked_at (env_starter_models demo_env).*1 [] x).
Proof.
  split; [concrete|].
  apply (starter_install_and_remove demo_env uncheck_all fresh_selections).
  concrete.
Defined.

(** C1, counterexample. [sd-1.5] is installed and its box is unchecked:
    it is put on the remove list. *)
Lemma starter_unchecked_is_removed :
  ∃ f s', form demo_env uncheck_all = inr f
    ∧ marshall_arguments f fresh_selections = (inr (), s')
    ∧ lit "sd-1.5" ∈ env_existing_models demo_env
    ∧ ¬ checked_at (env_starter_models demo_env).*1
                   (starter_checked uncheck_all) (lit "sd-1.5")
    ∧ lit "sd-1.5" ∈ remove_models s'.
Proof.
  destruct (marshall_arguments_plan demo_env uncheck_all fresh_selections)
    as (f & Hf & Hm); [concrete|].
  exists f, (plan demo_env uncheck_all fresh_selections).
  split; [done|]. split; [done|]. split; [|split].
  - by apply (bool_decide_unpack _); vm_compute.
  - intros (i & Hi & _). by apply elem_of_nil in Hi.
  - by apply (bool_decide_unpack _); vm_compute.
Qed.

(** C2 (as amended). The entries typed in the LoRA and in the
    textual-inversion box are appended, all of them and in order, at the end
    of the category's install list, whatever is checked or installed; of the
    entries typed in the ControlNet box only those containing [/] are; the
    entries typed in the diffusers box are not put on an install list but
    stored, all of them, in [import_model_paths]. *)
Theorem free_text_entries env u s :
  valid_edits env u →
  ∃ f s', form env u = inr f ∧ marshall_arguments f s = (inr (), s') ∧
    split (lora_text u) `suffix_of` install_lora_models s' ∧
    split (ti_text u) `suffix_of` install_ti_models s' ∧
    filter (λ x, slash ∈ x) (split (cn_text u))
      `suffix_of` install_cn_models s' ∧
    import_model_paths s' = split (diffusers_text u).
Proof.
  intros Hv. destruct (marshall_arguments_plan env u s Hv) as (f & Hf & Hm).
  exists f, (plan env u s). split; [done|]. split; [done|].
  unfold plan;
    cbn [install_lora_models install_ti_models install_cn_models
         import_model_paths].
  repeat split; try apply suffix_app_r; done.
Qed.

Lemma free_text_entries_witness :
  valid_edits demo_env typed_everywhere ∧
  ∃ f s', form demo_env typed_everywhere = inr f
    ∧ marshall_arguments f fresh_selections = (inr (), s')
    ∧ split (lora_text typed_everywhere) `suffix_of` install_lora_models s'
    ∧ split (ti_text typed_everywhere) `suffix_of` install_ti_models s'
    ∧ filter (λ x, slash ∈ x) (split (cn_text typed_everywhere))
        `suffix_of` install_cn_models s'
    ∧ import_model_paths s' = split (diffusers_text typed_everywhere).
Proof.
  split; [concrete|].
  apply (free_text_entries demo_env typed_everywhere fresh_selections).
  concrete.
Defined.

(** C2, counterexample. [foo], typed in the ControlNet box, is an entry of
    the free text and is not on the ControlNet install list. *)
Lemma controlnet_entry_dropped :
  ∃ f s', form demo_env typed_controlnet = inr f
    ∧ marshall_arguments f fresh_selections = (inr (), s')
    ∧ lit "foo" ∈ split (cn_text typed_controlnet)
    ∧ lit "foo" ∉ install_cn_models s'.
Proof.
  destruct (marshall_arguments_plan demo_env typed_controlnet fresh_selections)
    as (f & Hf & Hm); [concrete|].
  exists f, (plan demo_env typed_controlnet fresh_selections).
  split; [done|]. split; [done|].
  split; by apply (bool_decide_unpack _); vm_compute.
Qed.

(** C3 (as amended). The diffusers install and remove lists never share a
    name.  For ControlNet, LoRA and textual inversion, when the category has
    candidates (or its remove list was empty before the call), a name on
    both lists is one of the entries typed in the category's free-text
    box. *)
Theorem install_remove_overlap env u s :
  valid_edits env u →
  ∃ f s', form env u = inr f ∧ marshall_arguments f s = (inr (), s') ∧
    (∀ x, x ∈ install_models s' → x ∉ remove_models s') ∧
    (env_controlnet_models env ≠ ∅ ∨ remove_cn_models s = [] →
     ∀ x, x ∈ install_cn_models s' → x ∈ remove_cn_models s' →
          x ∈ split (cn_text u)) ∧
    (env_lora_models env ≠ ∅ ∨ remove_lora_models s = [] →
     ∀ x, x ∈ install_lora_models s' → x ∈ remove_lora_models s' →
          x ∈ split (lora_text u)) ∧
    (env_ti_models env ≠ ∅ ∨ remove_ti_models s = [] →
     ∀ x, x ∈ install_ti_models s' → x ∈ remove_ti_models s' →
          x ∈ split (ti_text u)).
Proof.
  intros Hv. destruct (marshall_arguments_plan env u s Hv) as (f & Hf & Hm).
  exists f, (plan env u s). split; [done|]. split; [done|].
  assert (∀ (d : gmap str bool) checked (old_i old_r extra : list str) x,
    d ≠ ∅ ∨ old_r = [] →
    x ∈ (if decide (0 < length (shown_models d))%nat
         then (to_install d (shown_models d) checked,
               to_remove d (shown_models d) checked)
         else (old_i, old_r)).1 ++ extra →
    x ∈ (if decide (0 < length (shown_models d))%nat
         then (to_install d (shown_models d) checked,
               to_remove d (shown_models d) checked)
         else (old_i, old_r)).2 →
    x ∈ extra) as Hcat.
  { intros d checked old_i old_r extra x Hd.
    destruct (decide _) as [|Hn]; cbn [fst snd].
    - rewrite elem_of_app, elem_of_to_install, elem_of_to_remove.
      intuition congruence.
    - destruct Hd as [Hd| ->]; [|by intros _ ?%elem_of_nil].
      by apply shown_models_nonempty in Hd. }
  unfold plan;
    cbn [install_models remove_models install_cn_models remove_cn_models
         install_lora_models remove_lora_models install_ti_models
         remove_ti_models].
  split; [|split; [|split]].
  - intros x.
    rewrite list_elem_of_filter, elem_of_dict_keys, elem_of_app,
      list_elem_of_filter, elem_of_to_remove.
    intros [Hx Hin%names_at_shown].
    rewrite (additional_not_starter _ _ _ Hin). intuition congruence.
  - intros Hd x Hi Hr.
    pose proof (Hcat _ _ _ _ _ x Hd Hi Hr) as Hx.
    by apply list_elem_of_filter in Hx as [_ ?].
  - intros Hd x. by apply Hcat.
  - intros Hd x. by apply Hcat.
Qed.

Lemma install_remove_overlap_witness :
  valid_edits demo_env retyped_lora ∧
  ∃ f s', form demo_env retyped_lora = inr f
    ∧ marshall_arguments f fresh_selections = (inr (), s')
    ∧ (∀ x, x ∈ install_models s' → x ∉ remove_models s')
    ∧ (env_controlnet_models demo_env ≠ ∅
       ∨ remove_cn_models fresh_selections = [] →
       ∀ x, x ∈ install_cn_models s' → x ∈ remove_cn_models s' →
            x ∈ split (cn_text retyped_lora))
    ∧ (env_lora_models demo_env ≠ ∅
       ∨ remove_lora_models fresh_selections = [] →
       ∀ x, x ∈ install_lora_models s' → x ∈ remove_lora_models s' →
            x ∈ split (lora_text retyped_lora))
    ∧ (env_ti_models demo_env ≠ ∅
       ∨ remove_ti_models fresh_selections = [] →
       ∀ x, x ∈ install_ti_models s' → x ∈ remove_ti_models s' →
            x ∈ split (ti_text retyped_lora)).
Proof.
  split; [concrete|].
  apply (install_remove_overlap demo_env retyped_lora fresh_selections).
  concrete.
Defined.

(** C3, counterexample. [lora-a] is installed, its box is unchecked and its
    name is typed in the LoRA box: it is on the LoRA install list and on the
    LoRA remove list. *)
Lemma lora_on_both_lists :
  valid_edits demo_env retyped_lora ∧
  ∃ f s', form demo_env retyped_lora = inr f
    ∧ marshall_arguments f fresh_selections = (inr (), s')
    ∧ lit "lora-a" ∈ install_lora_models s'
    ∧ lit "lora-a" ∈ remove_lora_models s'.
Proof.
  split; [concrete|].
  destruct (marshall_arguments_plan demo_env retyped_lora fresh_selections)
    as (f & Hf & Hm); [concrete|].
  exists f, (plan demo_env retyped_lora fresh_selections).
  split; [done|]. split; [done|].
  split; by apply (bool_decide_unpack _); vm_compute.
Qed.

(** Where the no-op property of an unchanged selection does hold: in every
    category that has candidates, and in the others when the lists of
    [selections] were empty before the call, as they are in a fresh
    [UserSelections()]. *)
Lemma unchanged_selection_noop env u s :
  valid_edits env u → unchanged_selection env u →
  ∃ f s', form env u = inr f ∧ marshall_arguments f s = (inr (), s') ∧
    install_models s' = [] ∧ remove_models s' = [] ∧
    import_model_paths s' = [] ∧
    (env_controlnet_models env ≠ ∅
     ∨ install_cn_models s = [] ∧ remove_cn_models s = [] →
     install_cn_models s' = [] ∧ remove_cn_models s' = []) ∧
    (env_lora_models env ≠ ∅
     ∨ install_lora_models s = [] ∧ remove_lora_models s = [] →
     install_lora_models s' = [] ∧ remove_lora_models s' = []) ∧
    (env_ti_models env ≠ ∅
     ∨ install_ti_models s = [] ∧ remove_ti_models s = [] →
     install_ti_models s' = [] ∧ remove_ti_models s' = []).
Proof.
  intros Hv (Hs & Hm & Hcn & Hlora & Hti & Td & Tcn & Tlora & Tti).
  destruct (marshall_arguments_plan env u s Hv) as (f & Hf & Hp).
  exists f, (plan env u s). split; [done|]. split; [done|].
  assert (∀ (d : gmap str bool) checked (old_i old_r : list str),
    selects_installed (λ x, d !! x = Some true) (shown_models d) checked →
    d ≠ ∅ ∨ old_i = [] ∧ old_r = [] →
    (if decide (0 < length (shown_models d))%nat
     then (to_install d (shown_models d) checked,
           to_remove d (shown_models d) checked)
     else (old_i, old_r)) = ([], [])) as Hcat.
  { intros d checked old_i old_r Hsel Hd.
    destruct (decide _) as [|Hn].
    - f_equal; apply elem_of_nil_inv; intros x.
      + rewrite elem_of_to_install. intros [Hx Hc].
        pose proof Hc as (i & _ & Hi). apply list_elem_of_lookup_2 in Hi.
        apply (Hsel x Hi) in Hc. congruence.
      + rewrite elem_of_to_remove. intros [[Hx Hc] Hin].
        by apply Hc, (Hsel x Hin).
    - destruct Hd as [Hd|[-> ->]]; [|done].
      by apply shown_models_nonempty in Hd. }
  unfold plan;
    cbn [install_models remove_models install_cn_models remove_cn_models
         install_lora_models remove_lora_models install_ti_models
         remove_ti_models import_model_paths].
  rewrite Td, Tcn, Tlora, Tti, filter_nil, !app_nil_r.
  split; [|split; [|split; [done|split; [|split]]]].
  - apply elem_of_nil_inv. intros x.
    rewrite list_elem_of_filter, elem_of_dict_keys.
    intros [Hx Hc]. pose proof (names_at_shown _ _ _ Hc) as Hin.
    apply elem_of_names_at, (Hs x Hin) in Hc. done.
  - apply elem_of_nil_inv. intros x.
    rewrite elem_of_app, list_elem_of_filter, elem_of_dict_keys,
      elem_of_names_at, elem_of_to_remove.
    intros [[[Hx Hc] Hin]|[[Hx Hc] Hin]].
    + by apply Hc, (Hs x Hin).
    + by apply Hc, (Hm x Hin).
  - intros Hd. by rewrite (Hcat _ _ _ _ Hcn Hd).
  - intros Hd. by rewrite (Hcat _ _ _ _ Hlora Hd).
  - intros Hd. by rewrite (Hcat _ _ _ _ Hti Hd).
Qed.

(** A way to check [selects_installed] on a concrete list. *)
Lemma selects_installed_check (P : str → Prop) shown checked :
  Forall (λ x, x ∈ names_at shown checked ↔ P x) shown →
  selects_installed P shown checked.
Proof.
  intros Hall x Hx. rewrite <- elem_of_names_at.
  by apply (proj1 (Forall_forall _ _) Hall).
Qed.

(** In [demo_env], [unchanged] changes nothing. *)
Lemma unchanged_changes_nothing : unchanged_selection demo_env unchanged.
Proof.
  unfold unchanged_selection. cbn zeta.
  split_and!; try reflexivity;
    apply selects_installed_check;
    by apply (bool_decide_unpack _); vm_compute.
Qed.

(** C4, the failing run.  [foo org/model-a] is typed in the ControlNet box
    and the form is marshalled; then, with nothing typed and what is
    installed left checked, it is marshalled again into the same
    [selections].  The second call leaves [org/model-a] on the ControlNet
    install list: the list is the one the first call filled, and a category
    without candidates does not reset it.  This holds whatever [selections]
    held at the start. *)
Theorem unchanged_selection_keeps_earlier_entries s0 :
  ∃ f1 s1 f2 s2,
    form demo_env typed_controlnet = inr f1
    ∧ marshall_arguments f1 s0 = (inr (), s1)
    ∧ form demo_env unchanged = inr f2
    ∧ marshall_arguments f2 s1 = (inr (), s2)
    ∧ unchanged_selection demo_env unchanged
    ∧ lit "org/model-a" ∈ install_cn_models s2.
Proof.
  destruct (marshall_arguments_plan demo_env typed_controlnet s0)
    as (f1 & Hf1 & Hm1); [concrete|].
  destruct (marshall_arguments_plan demo_env unchanged
              (plan demo_env typed_controlnet s0))
    as (f2 & Hf2 & Hm2); [concrete|].
  exists f1, (plan demo_env typed_controlnet s0), f2,
    (plan demo_env unchanged (plan demo_env typed_controlnet s0)).
  do 4 (split; [assumption|]).
  split; [apply unchanged_changes_nothing|].
  unfold plan; cbn [install_cn_models].
  replace (shown_models (env_controlnet_models demo_env)) with (@nil str)
    by (by vm_compute).
  replace (split (cn_text unchanged)) with (@nil str) by (by vm_compute).
  replace (split (cn_text typed_controlnet))
    with [lit "foo"; lit "org/model-a"] by (by vm_compute).
  cbn [length fst]. rewrite decide_False by lia. cbn [fst].
  rewrite !elem_of_app. left. right.
  apply list_elem_of_filter.
  split; [by apply (bool_decide_unpack _); vm_compute|].
  apply list_elem_of_further, list_elem_of_here.
Qed.

(** C5. [purge_deleted_models] is the disjunction of the two purge
    checkboxes, the one of the starter tab and the one of the diffusers
    tab. *)
Theorem purge_is_disjunction env u s :
  valid_edits env u →
  ∃ f s', form env u = inr f ∧ marshall_arguments f s = (inr (), s') ∧
    purge_deleted_models s' = starter_purge u || diffusers_purge u.
Proof.
  intros Hv. destruct (marshall_arguments_plan env u s Hv) as (f & Hf & Hm).
  by exists f, (plan env u s).
Qed.

Lemma purge_is_disjunction_witness :
  valid_edits demo_env purge_on_starter_tab ∧
  starter_purge purge_on_starter_tab = true ∧
  diffusers_purge purge_on_starter_tab = false ∧
  ∃ f s', form demo_env purge_on_starter_tab = inr f
    ∧ marshall_arguments f fresh_selections = (inr (), s')
    ∧ purge_deleted_models s' = true.
Proof.
  split; [concrete|]. split; [reflexivity|]. split; [reflexivity|].
  apply (purge_is_disjunction demo_env purge_on_starter_tab fresh_selections).
  concrete.
Defined.

End ReconcileFacts.

(* ===================================================================== *)
(** ** Facts about worker and controller *)
(* ===================================================================== *)

Module OrchestratorFacts.
Import Py Orchestrator PyFacts.

Lemma decode_encoded s : encodable s → utf8_decode (encoded s) = inr s.
Proof. apply decode_encode. Qed.

Lemma encodable_sentinel : encodable sentinel.
Proof. by vm_compute. Qed.

Lemma write_all_encodable out :
  Forall encodable out →
  write_all out = (send_bytes ∘ encoded <$> out, inr ()).
Proof.
  induction 1 as [|data out Hd _ IH]; [done|].
  cbn [write_all]. unfold write at 1. rewrite Hd, IH. done.
Qed.

Lemma process_and_execute_returns out :
  Forall encodable out →
  process_and_execute (Some conn) (mkRun out (inr ()))
  = ((send_bytes ∘ encoded <$> out) ++ [send_bytes (encoded sentinel); close],
     inr ()).
Proof.
  intros Hout. unfold process_and_execute, install_requested_models.
  cbn [bool_decide decide_rel output outcome].
  rewrite bool_decide_eq_true_2 by by eexists.
  rewrite write_all_encodable by done.
  rewrite encodable_sentinel. cbn. by rewrite !app_nil_r.
Qed.

Lemma take_drop_take {A} (l : list A) i j :
  (i ≤ j)%nat → take i l ++ drop i (take j l) = take j l.
Proof.
  intros Hij. rewrite <- (Nat.min_l i j) at 1 by done.
  rewrite <- take_take. apply take_drop.
Qed.

Section ControllerFacts.
Variable wrap : str → nat → str → list str.

Abbreviation wrapped := (Orchestrator.wrapped wrap).
Abbreviation expected_events := (Orchestrator.expected_events wrap).
Abbreviation streaming := (Orchestrator.streaming wrap).

Lemma poll_loop_texts texts :
  Forall text_chunk texts →
  ∀ fuel c lines w rest closed evs,
    poll_loop wrap (length texts + fuel) (mkForm c (mkPager lines w))
              (mkPipe ((encoded <$> texts) ++ rest) closed) evs
    = poll_loop wrap fuel
        (mkForm c (mkPager (lines ++ concat (wrapped w <$> texts)) w))
        (mkPipe rest closed) (evs ++ (Text ∘ wrapped w <$> texts)).
Proof.
  induction 1 as [|t texts [He Hne] _ IH]; intros fuel c lines w rest closed evs.
  - cbn. by rewrite !app_nil_r.
  - cbn [length Nat.add fmap list_fmap app poll_loop poll recv_bytes inbox
         writer_closed].
    rewrite (decode_encoded t He). cbn zeta.
    rewrite decide_False by done.
    cbn [monitor width subprocess_connection pager_values]. unfold buffer.
    cbn [width pager_values]. rewrite IH. cbn [concat].
    unfold compose at 3. unfold wrapped at 3 5.
    by rewrite <- !app_assoc.
Qed.


Section Streaming.
Variables (lines : list str) (w : nat) (cs : list str) (fuel : nat).
Hypothesis Hcs : Forall text_chunk cs.
Hypothesis Hfuel : (length cs + 2 ≤ fuel)%nat.

Abbreviation n := (length cs).
Abbreviation items := (cs ++ [sentinel]).
Abbreviation reachable := (Orchestrator.reachable (length cs)).

Lemma work_streaming i j closed :
  reachable i j closed →
  ∃ j' closed', reachable i j' closed'
    ∧ work (streaming lines w cs i j closed) = streaming lines w cs i j' closed'
    ∧ (j' = S j ∨ j' = S n).
Proof.
  intros (Hij & Hi & Hj & Hc). unfold work, streaming. cbn zeta.
  assert (length items = S n) as Hlen
    by (rewrite length_app; simpl; lia).
  destruct (decide (j = S n)) as [->|Hne].
  - exists (S n), true. split; [done|]. split; [|by right].
    rewrite (drop_ge items) by lia. destruct closed; done.
  - assert (closed = false) as -> by (destruct closed; [by specialize (Hc eq_refl)|done]).
    destruct (lookup_lt_is_Some_2 items j) as [x Hx]; [lia|].
    exists (S j), false. split; [unfold reachable; repeat split; (lia || done)|].
    split; [|by left].
    rewrite (drop_S items x j Hx). cbn [fmap list_fmap app worker shown channel].
    f_equal. unfold perform. cbn [inbox writer_closed]. f_equal.
    rewrite (take_S_r items j x Hx).
    rewrite drop_app_le by (rewrite length_take; lia).
    by rewrite fmap_app.
Qed.

Lemma texts_between i j : (j ≤ n)%nat → Forall text_chunk (drop i (take j cs)).
Proof. intros _. by apply Forall_drop, Forall_take. Qed.

Lemma tick_streaming_pending i j closed :
  reachable i j closed → (j ≤ n)%nat →
  while_waiting wrap fuel (shown (streaming lines w cs i j closed))
                (channel (streaming lines w cs i j closed))
  = Some (mkPolled (inr ()) (shown (streaming lines w cs j j closed))
                   (channel (streaming lines w cs j j closed))
                   (Text ∘ wrapped w <$> drop i (take j cs))).
Proof.
  intros (Hij & Hi & Hj & Hc) Hjn. unfold while_waiting, streaming. cbn zeta.
  cbn [shown channel subprocess_connection].
  assert (closed = false) as ->
    by (destruct closed; [specialize (Hc eq_refl); lia|done]).
  assert (take j items = take j cs) as ->
    by (apply take_app_le; lia).
  rewrite (drop_ge (take j cs) j) by (rewrite length_take; lia).
  set (texts := drop i (take j cs)).
  replace fuel with (length texts + (fuel - length texts))%nat
    by (unfold texts; rewrite length_drop, length_take; lia).
  rewrite <- (app_nil_r (encoded <$> texts)).
  rewrite poll_loop_texts by apply texts_between, Hjn.
  destruct (fuel - length texts)%nat as [|fuel'] eqn:Ef;
    [unfold texts in Ef; rewrite length_drop, length_take in Ef; lia|].
  cbn. do 3 f_equal. rewrite <- app_assoc, <- concat_app, <- fmap_app.
  do 3 f_equal. unfold texts.
  f_equal. by apply take_drop_take.
Qed.


Lemma tick_streaming_sentinel i closed :
  reachable i (S n) closed →
  while_waiting wrap fuel (shown (streaming lines w cs i (S n) closed))
                (channel (streaming lines w cs i (S n) closed))
  = Some (mkPolled (inr ())
            (mkForm None
               (mkPager (((lines ++ concat (wrapped w <$> cs))
                            ++ [action_complete]) ++ [lit ""]) w))
            (mkPipe [] closed)
            ((Text ∘ wrapped w <$> drop i cs) ++ [Completed])).
Proof.
  intros (Hij & Hi & Hj & Hc). unfold while_waiting, streaming. cbn zeta.
  cbn [shown channel subprocess_connection].
  rewrite (take_ge items)
    by (rewrite length_app; simpl; lia).
  rewrite drop_app_le by lia. rewrite fmap_app.
  set (texts := drop i cs).
  replace fuel with (length texts + (fuel - length texts))%nat
    by (unfold texts; rewrite length_drop; lia).
  rewrite poll_loop_texts by apply Forall_drop, Hcs.
  destruct (fuel - length texts)%nat as [|fuel'] eqn:Ef;
    [unfold texts in Ef; rewrite length_drop in Ef; lia|].
  cbn [fmap list_fmap poll_loop poll recv_bytes inbox writer_closed].
  rewrite (decode_encoded sentinel encodable_sentinel). cbn zeta.
  rewrite decide_True by done. unfold buffer, addForm.
  cbn [monitor width pager_values subprocess_connection].
  rewrite <- (app_assoc lines), <- concat_app, <- fmap_app.
  unfold texts. by rewrite take_drop.
Qed.

Lemma run_completed sched : ∀ sys evs,
  subprocess_connection (shown sys) = None →
  ∃ sys', run wrap fuel sched sys evs = Some (inr (), sys', evs)
          ∧ subprocess_connection (shown sys') = None.
Proof.
  induction sched as [|[] sched IH]; intros sys evs Hnone.
  - by exists sys.
  - cbn [run]. apply IH. unfold work. by destruct (worker sys).
  - cbn [run]. unfold while_waiting. rewrite Hnone.
    cbn [ended main_form pipe events]. rewrite app_nil_r.
    destruct (IH (mkSystem (shown sys) (channel sys) (worker sys)) evs Hnone)
      as (sys' & Hrun & Hnone').
    by exists sys'.
Qed.

Lemma events_prefix i :
  (Text ∘ wrapped w <$> take i cs) `prefix_of` expected_events w cs.
Proof.
  unfold expected_events. rewrite <- (take_drop i cs) at 2.
  rewrite fmap_app, <- app_assoc. by apply prefix_app_r.
Qed.

Lemma run_streaming sched : ∀ i j closed,
  reachable i j closed →
  ∃ sys evs,
    run wrap fuel sched (streaming lines w cs i j closed)
        (Text ∘ wrapped w <$> take i cs) = Some (inr (), sys, evs)
    ∧ evs `prefix_of` expected_events w cs
    ∧ (polls_after (S n - j) sched →
       evs = expected_events w cs
       ∧ subprocess_connection (shown sys) = None).
Proof.
  induction sched as [|[] sched IH]; intros i j closed Hr.
  - eexists _, _. split; [done|]. split; [apply events_prefix|].
    intros (pre & post & Heq & _). by destruct pre.
  - destruct (work_streaming i j closed Hr) as (j' & closed' & Hr' & Hw & Hj').
    cbn [run]. rewrite Hw.
    destruct (IH i j' closed' Hr') as (sys & evs & Hrun & Hpre & Hall).
    exists sys, evs. split; [done|]. split; [done|].
    intros (pre & post & Heq & Hn). apply Hall.
    destruct pre as [|st pre]; [done|]. injection Heq as <- ->.
    exists pre, post. split; [done|]. cbn [works] in Hn. lia.
  - pose proof Hr as (Hij & Hi & Hj & Hc).
    destruct (decide (j = S n)) as [->|Hne].
    + cbn [run]. rewrite (tick_streaming_sentinel i closed Hr).
      cbn [ended main_form pipe events].
      rewrite app_assoc, <- fmap_app, take_drop.
      fold (expected_events w cs).
      edestruct (run_completed sched) as (sys' & -> & Hnone); [done|].
      by exists sys', (expected_events w cs).
    + assert (j ≤ n)%nat as Hjn by lia.
      cbn [run]. rewrite (tick_streaming_pending i j closed Hr Hjn).
      cbn [ended main_form pipe events].
      rewrite <- fmap_app.
      rewrite take_drop_take by done.
      destruct (IH j j closed) as (sys & evs & Hrun & Hpre & Hall);
        [unfold reachable; repeat split; (lia || done)|].
      exists sys, evs. split; [exact Hrun|]. split; [done|].
      intros (pre & post & Heq & Hn). apply Hall.
      destruct pre as [|st pre]; [cbn [works] in Hn; lia|].
      injection Heq as <- ->. by exists pre, post.
Qed.

End Streaming.

(** Any list of text chunks followed by the sentinel. *)
Lemma streaming_run lines w cs fuel sched :
  Forall text_chunk cs → (length cs + 2 ≤ fuel)%nat →
  ∃ sys evs,
    run wrap fuel sched (spawned lines w (mkRun cs (inr ()))) []
    = Some (inr (), sys, evs)
    ∧ evs `prefix_of` expected_events w cs
    ∧ (polls_after (S (length cs)) sched →
       evs = expected_events w cs
       ∧ subprocess_connection (shown sys) = None).
Proof.
  intros Hcs Hfuel.
  assert (spawned lines w (mkRun cs (inr ()))
          = streaming lines w cs 0 0 false) as ->.
  { unfold spawned, streaming.
    rewrite process_and_execute_returns
      by (eapply Forall_impl; [exact Hcs|by intros ? []]).
    cbn [fst]. rewrite !take_0, !drop_0, fmap_app.
    cbn [fmap list_fmap concat]. by rewrite app_nil_r, <- app_assoc. }
  destruct (run_streaming lines w cs fuel Hcs Hfuel sched 0 0 false)
    as (sys & evs & Hrun & Hpre & Hall).
  { unfold reachable. repeat split; (lia || done). }
  exists sys, evs. split; [exact Hrun|]. split; [done|].
  intros Hp. apply Hall. by rewrite Nat.sub_0_r.
Qed.

(** At the end of the stream the loop does not return: [poll] stays true,
    [recv_bytes] raises again, and the handler has no [break]. *)
Lemma poll_loop_end_of_stream fuel : ∀ self evs,
  poll_loop wrap fuel self (mkPipe [] true) evs = None.
Proof. induction fuel as [|fuel IH]; intros self evs; [done|]. cbn. apply IH. Qed.

(** A tick that finds text chunks and then the sentinel. *)
Lemma tick_texts_sentinel fuel lines w texts rest closed :
  Forall text_chunk texts → (length texts < fuel)%nat →
  while_waiting wrap fuel (mkForm (Some conn) (mkPager lines w))
                (mkPipe ((encoded <$> texts) ++ encoded sentinel :: rest) closed)
  = Some (mkPolled (inr ())
            (mkForm None
               (mkPager ((lines ++ concat (wrapped w <$> texts))
                           ++ [action_complete; lit ""]) w))
            (mkPipe rest closed)
            (expected_events w texts)).
Proof.
  intros Htexts Hfuel. unfold while_waiting. cbn [subprocess_connection].
  replace fuel with (length texts + (fuel - length texts))%nat by lia.
  rewrite poll_loop_texts by done.
  destruct (fuel - length texts)%nat as [|fuel'] eqn:Ef; [lia|].
  cbn [poll_loop poll recv_bytes inbox writer_closed].
  rewrite (decode_encoded sentinel encodable_sentinel). cbn zeta.
  rewrite decide_True by done. unfold buffer, addForm, expected_events.
  cbn [monitor width pager_values subprocess_connection app].
  by rewrite <- (app_assoc _ [action_complete]).
Qed.

End ControllerFacts.

(** Settles the side conditions of a concrete run. *)
Ltac concrete :=
  repeat first [apply Forall_nil | apply Forall_cons_2 | split]; by vm_compute.

(** C6. The worker writes two text chunks and then the sentinel.  Whatever
    the interleaving of its steps with the controller's ticks, every tick
    returns, and what the ticks have shown so far is an initial segment of:
    the first chunk wrapped, the second chunk wrapped, [Completed].  As soon
    as a tick comes after the worker's third write it is all of it, the
    connection is forgotten, and this stays so however many ticks follow. *)
Theorem two_chunks_then_sentinel wrap lines w s1 s2 fuel sched :
  text_chunk s1 → text_chunk s2 → (4 ≤ fuel)%nat →
  let expected := [Text (wrap s1 w subsequent_indent);
                   Text (wrap s2 w subsequent_indent);
                   Completed] in
  ∃ sys evs,
    run wrap fuel sched (spawned lines w (mkRun [s1; s2] (inr ()))) []
    = Some (inr (), sys, evs)
    ∧ evs `prefix_of` expected
    ∧ (polls_after 3 sched →
       evs = expected ∧ subprocess_connection (shown sys) = None).
Proof.
  intros H1 H2 Hfuel.
  apply (streaming_run wrap lines w [s1; s2] fuel sched); [|done].
  by apply Forall_cons_2, Forall_cons_2, Forall_nil.
Qed.

Lemma two_chunks_then_sentinel_witness :
  text_chunk fetching_x ∧ text_chunk fetching_y ∧ (4 ≤ 4)%nat ∧
  ∃ sys evs,
    run one_line 4 tick_per_write (spawned processing 80 installer_succeeds) []
    = Some (inr (), sys, evs)
    ∧ evs `prefix_of` [Text [fetching_x]; Text [fetching_y]; Completed]
    ∧ (polls_after 3 tick_per_write →
       evs = [Text [fetching_x]; Text [fetching_y]; Completed]
       ∧ subprocess_connection (shown sys) = None).
Proof.
  split; [concrete|]. split; [concrete|]. split; [lia|].
  apply (two_chunks_then_sentinel one_line processing 80 fetching_x fetching_y
           4 tick_per_write); [concrete|concrete|lia].
Defined.

(** C7, the failing run.  The installer writes one chunk and raises; the
    worker process exits without the sentinel.  The next tick shows the
    chunk, meets the end of the stream, forgets the connection, and goes on
    polling the pipe through the local name: it does not return, whatever
    the fuel. *)
Theorem tick_never_returns_after_worker_death wrap fuel :
  run wrap fuel [Work; Work; Tick] (spawned processing 80 installer_fails) []
  = None.
Proof.
  assert (work (work (spawned processing 80 installer_fails))
          = mkSystem (mkForm (Some conn) (mkPager processing 80))
                     (mkPipe [encoded fetching_x] true) []) as Hdead
    by (by vm_compute).
  cbn [run]. rewrite Hdead. cbn [shown channel]. unfold while_waiting.
  cbn [subprocess_connection].
  destruct fuel as [|fuel]; [done|].
  cbn [poll_loop poll recv_bytes inbox writer_closed].
  rewrite (decode_encoded fetching_x) by (by vm_compute). cbn zeta.
  rewrite decide_False by (by vm_compute).
  by rewrite poll_loop_end_of_stream.
Qed.

(** C8 (as amended). With a connection, a call of the installer that
    returns is followed by the sentinel and then by [close], once each and
    after all of the installer's output; a call that raises is followed by
    nothing: the exception leaves the worker body, which neither writes the
    sentinel nor closes the connection. *)
Theorem worker_sentinel_on_return r :
  Forall encodable (output r) →
  (outcome r = inr () →
   process_and_execute (Some conn) r
   = ((send_bytes ∘ encoded <$> output r)
        ++ [send_bytes (encoded sentinel); close], inr ()))
  ∧ (∀ e, outcome r = inl e →
     process_and_execute (Some conn) r
     = (send_bytes ∘ encoded <$> output r, inl e)).
Proof.
  intros Hout. destruct r as [out res]. cbn [output outcome] in *. split.
  - intros ->. by apply process_and_execute_returns.
  - intros e ->. unfold process_and_execute, install_requested_models.
    cbn [output outcome]. rewrite bool_decide_eq_true_2 by by eexists.
    rewrite write_all_encodable by done. cbn. by rewrite app_nil_r.
Qed.

Lemma worker_sentinel_on_return_witness :
  Forall encodable (output installer_succeeds)
  ∧ outcome installer_succeeds = inr ()
  ∧ process_and_execute (Some conn) installer_succeeds
    = ([send_bytes (encoded fetching_x); send_bytes (encoded fetching_y);
        send_bytes (encoded sentinel); close], inr ()).
Proof.
  split; [concrete|]. split; [reflexivity|].
  apply (worker_sentinel_on_return installer_succeeds); [concrete|reflexivity].
Defined.

(** C8, counterexample. The installer raises: the worker has written the
    installer's chunk and nothing else, neither the sentinel nor a
    [close]. *)
Lemma installer_raises_no_sentinel :
  ∃ ops, process_and_execute (Some conn) installer_fails
         = (ops, inl InstallerError)
    ∧ (send_bytes (encoded sentinel) ∉ ops) ∧ (close ∉ ops).
Proof.
  exists [send_bytes (encoded fetching_x)]. split; [by vm_compute|].
  split; intros [H|H]%elem_of_cons; try discriminate;
    by apply elem_of_nil in H.
Qed.

(** C9 (as amended). When a tick meets the sentinel, the monitor of the
    rebuilt form holds the lines the old monitor held just before (those it
    had at the start of the tick and those of the chunks shown in this
    tick), in the same order, then the marker line, then one empty line. *)
Theorem scrollback_after_completion wrap fuel lines w texts rest closed :
  Forall text_chunk texts → (length texts < fuel)%nat →
  ∃ r,
    while_waiting wrap fuel (mkForm (Some conn) (mkPager lines w))
      (mkPipe ((encoded <$> texts) ++ encoded sentinel :: rest) closed)
    = Some r
    ∧ ended r = inr ()
    ∧ pager_values (monitor (main_form r))
      = (lines ++ concat (wrapped wrap w <$> texts))
          ++ [action_complete; lit ""].
Proof.
  intros Htexts Hfuel. eexists. split; [by apply tick_texts_sentinel|done].
Qed.

Lemma scrollback_after_completion_witness :
  Forall text_chunk [fetching_x] ∧ (length [fetching_x] < 2)%nat ∧
  ∃ r,
    while_waiting one_line 2 (mkForm (Some conn) (mkPager processing 80))
      (mkPipe [encoded fetching_x; encoded sentinel] true)
    = Some r
    ∧ ended r = inr ()
    ∧ pager_values (monitor (main_form r))
      = [lit "Processing..."; fetching_x; action_complete; lit ""].
Proof.
  split; [concrete|]. split; [simpl; lia|].
  apply (scrollback_after_completion one_line 2 processing 80 [fetching_x]
           [] true); [concrete|simpl; lia].
Defined.

(** C9, counterexample. The monitor of the rebuilt form is not the old
    one with the marker line appended: an empty line follows the marker. *)
Lemma completion_appends_empty_line :
  ∃ r,
    while_waiting one_line 1 (mkForm (Some conn) (mkPager processing 80))
                  (mkPipe [encoded sentinel] false)
    = Some r
    ∧ events r = [Completed]
    ∧ pager_values (monitor (main_form r)) ≠ processing ++ [action_complete].
Proof. eexists. split; [by vm_compute|]. split; [done|]. by vm_compute. Qed.

(** C10. A chunk completes the installation exactly when its decoded text
    is ['*done*']; any other text is shown.  The copy stripped of newlines
    is not the one compared: ['*done*\n'] strips to the sentinel and is not
    the sentinel. *)
Theorem sentinel_is_exact wrap fuel lines w b data :
  utf8_decode b = inr data →
  ∃ r,
    while_waiting wrap (S (S fuel)) (mkForm (Some conn) (mkPager lines w))
                  (mkPipe [b] false)
    = Some r
    ∧ ended r = inr ()
    ∧ (data = sentinel →
       events r = [Completed]
       ∧ subprocess_connection (main_form r) = None)
    ∧ (data ≠ sentinel →
       events r = [Text (wrap data w subsequent_indent)]
       ∧ subprocess_connection (main_form r) = Some conn)
    ∧ strip newline (sentinel ++ newline) = sentinel
    ∧ sentinel ++ newline ≠ sentinel.
Proof.
  intros Hb. unfold while_waiting.
  cbn [subprocess_connection poll_loop poll recv_bytes inbox writer_closed].
  rewrite Hb. cbn zeta. destruct (decide (data = sentinel)) as [->|Hne].
  - eexists. split; [done|]. by repeat split.
  - eexists. split; [done|]. by repeat split.
Qed.

Lemma sentinel_is_exact_witness :
  utf8_decode (encoded (sentinel ++ newline)) = inr (sentinel ++ newline) ∧
  ∃ r,
    while_waiting one_line 2 (mkForm (Some conn) (mkPager processing 80))
                  (mkPipe [encoded (sentinel ++ newline)] false)
    = Some r
    ∧ events r = [Text [sentinel ++ newline]]
    ∧ subprocess_connection (main_form r) = Some conn.
Proof.
  split; [by vm_compute|].
  destruct (sentinel_is_exact one_line 0 processing 80
              (encoded (sentinel ++ newline)) (sentinel ++ newline))
    as (r & Hr & _ & _ & Htext & _); [by vm_compute|].
  exists r. split; [exact Hr|]. apply Htext. by vm_compute.
Defined.

End OrchestratorFacts.

